(** * sttp: state transition table parser

    A shallow embedding of [sttp.py] (class [STTP]) and the properties of its
    table parser.

    Modelling conventions.
    - A Python [str] is a [string]; every [ascii] stands for one code point
      below 256.
    - The rows yielded by [csv.reader] are a [list (list string)]: the first
      one is the header row, the others are the data rows.  A blank line of
      the file is the row [[]].
    - Exceptions are values of [exn]; code that may raise returns a [result].
    - A transition (an [OrderedDict] with the keys [trigger], [source],
      [dest], in that order) is a record with these three fields.
    - The lazily cached properties ([_stt], [_json], [_dot]) are pure
      functions of the file content, so the cache is not modelled.
    - Calls into libraries are kept as data: a [graphviz.Digraph] is the
      list of the statements added to it, a sub-parser of [argparse] is the
      list of its [add_argument] calls; [json.dumps] is modelled on the
      values that are exported. *)

From Stdlib Require Import ZArith Ascii String List Lia DecimalString DecimalPos.
From stdpp Require Import base option list gmap strings.

Local Open Scope Z_scope.

(** ** Exceptions and the error monad *)

(** The pieces of an f-string: literal text, and the [repr] of a row, which
    is kept symbolic. *)
Inductive fpart : Type :=
  | Text (s : string)
  | ReprRow (row : list string).

Inductive exn : Type :=
  | STTPError (message : list fpart)
  | IndexError
  | StopIteration
  | AssertionError.

Inductive result (A : Type) : Type :=
  | Ok (a : A)
  | Raise (e : exn).
Arguments Ok {A} a.
Arguments Raise {A} e.

#[global] Instance result_ret : MRet result := fun A a => Ok a.
#[global] Instance result_bind : MBind result := fun A B f r =>
  match r with
  | Ok a => f a
  | Raise e => Raise e
  end.
#[global] Instance result_fmap : FMap result := fun A B f r =>
  match r with
  | Ok a => Ok (f a)
  | Raise e => Raise e
  end.

(** ** The Python built-ins the parser uses *)

Module Py.

(** [bool(s)] for a [str]: the empty string is false. *)
Definition truthy (s : string) : bool :=
  match s with
  | EmptyString => false
  | String _ _ => true
  end.

(** [s[:n]] *)
Fixpoint slice_to (n : nat) (s : string) : string :=
  match n, s with
  | S n', String c s' => String c (slice_to n' s')
  | _, _ => EmptyString
  end.

(** [s[n:]] *)
Fixpoint slice_from (n : nat) (s : string) : string :=
  match n, s with
  | S n', String _ s' => slice_from n' s'
  | _, _ => s
  end.

(** [s[0]]: a string of one character, or [IndexError]. *)
Definition str_first (s : string) : result string :=
  match s with
  | EmptyString => Raise IndexError
  | String c _ => Ok (String c EmptyString)
  end.

(** [row[i]] for a list: [IndexError] out of range. *)
Definition getitem (row : list string) (i : nat) : result string :=
  match row !! i with
  | Some cell => Ok cell
  | None => Raise IndexError
  end.

(** *** [int(s)] in base 10

    As CPython evaluates it: the string is first brought to ASCII (a
    non-ASCII space becomes a blank, any other non-ASCII character ends
    the string with a question mark; below 256 no non-ASCII character is a
    decimal digit), then read as blanks, an optional sign, digits
    with single underscores between them, blanks.  The interpreter's
    configurable bound on the number of digits is left out. *)

Definition code (c : ascii) : N := N_of_ascii c.

Definition Py_ISSPACE (c : ascii) : bool :=
  ((9 <=? code c) && (code c <=? 13) || (code c =? 32))%N.

Definition Py_UNICODE_ISSPACE (c : ascii) : bool :=
  ((9 <=? code c) && (code c <=? 13) || (28 <=? code c) && (code c <=? 32)
   || (code c =? 133) || (code c =? 160))%N.

Fixpoint is_ascii (s : string) : bool :=
  match s with
  | EmptyString => true
  | String c s' => (code c <? 128)%N && is_ascii s'
  end.

Fixpoint transform_loop (s : string) : string :=
  match s with
  | EmptyString => EmptyString
  | String c s' =>
      if (code c <? 127)%N then String c (transform_loop s')
      else if Py_UNICODE_ISSPACE c then String " " (transform_loop s')
      else String "?" EmptyString
  end.

Definition transform_decimal_and_space_to_ascii (s : string) : string :=
  if is_ascii s then s else transform_loop s.

Fixpoint skip_space (s : string) : string :=
  match s with
  | String c s' => if Py_ISSPACE c then skip_space s' else s
  | EmptyString => s
  end.

Definition digit_value (c : ascii) : option Z :=
  if ((48 <=? code c) && (code c <=? 57))%N
  then Some (Z.of_N (code c) - 48) else None.

(** The digit loop: [prev_us] tells that the previous character was an
    underscore, [digits] counts the digits read, [acc] is their value. *)
Fixpoint scan_digits (prev_us : bool) (digits : nat) (acc : Z) (s : string)
  : option (nat * Z * string) :=
  match s with
  | String c s' =>
      match digit_value c with
      | Some v => scan_digits false (S digits) (10 * acc + v) s'
      | None =>
          if Ascii.eqb c "_"
          then if prev_us then None else scan_digits true digits acc s'
          else if prev_us then None else Some (digits, acc, s)
      end
  | EmptyString => if prev_us then None else Some (digits, acc, s)
  end.

Definition long_from_string (s : string) : option Z :=
  let s := skip_space s in
  let '(sign, s) :=
    match s with
    | String "+" s' => (1, s')
    | String "-" s' => (-1, s')
    | _ => (1, s)
    end in
  match s with
  | String "_" _ => None
  | _ =>
      match scan_digits false 0 0 s with
      | Some (S _, v, rest) =>
          match skip_space rest with
          | EmptyString => Some (sign * v)
          | String _ _ => None
          end
      | _ => None
      end
  end.

(** [int(s)]: [None] stands for [ValueError]. *)
Definition int (s : string) : option Z :=
  long_from_string (transform_decimal_and_space_to_ascii s).

(** [str(n)] for an [int], as the f-string [f'{n}'] renders it. *)
Definition str (n : Z) : string :=
  NilZero.string_of_int (Z.to_int n).

End Py.

(** ** The parser: class [STTP] *)

Record transition : Type := Transition {
  trigger : string;
  source : string;
  dest : string;
}.

Definition _SOURCE_HEADER : string := "SOURCE".
Definition _DEST_HEADER : string := "DEST".
Definition _TRIGGER_HEADER : string := "TRIGGER".
Definition _HEADER_ROW : list string :=
  [_SOURCE_HEADER; _DEST_HEADER; _TRIGGER_HEADER].
Definition _INVALID_ROW_MSG : string := "Invalid row".
Definition _SOURCE_KEY : string := "source".
Definition _DEST_KEY : string := "dest".
Definition _TRIGGER_KEY : string := "trigger".
Definition _TRANSITION_KEYS : list string :=
  [_SOURCE_KEY; _DEST_KEY; _TRIGGER_KEY].
Definition _EVENT_PREFIX : string := "_".
Definition _EVENT_STR : string := "EVT".
Definition _TIMED_TRANSITION_PREFIX : string := "__".

(** [raise STTPError(f'{self._INVALID_ROW_MSG}: {row}. {message}')] *)
Definition _parse_error {A : Type} (row : list string) (message : string)
  : result A :=
  Raise (STTPError
           [Text _INVALID_ROW_MSG; Text ": "; ReprRow row; Text ". ";
            Text message]).

(** The keys of the [OrderedDict] a transition is. *)
Definition keys (t : transition) : list string :=
  [_TRIGGER_KEY; _SOURCE_KEY; _DEST_KEY].

(** [_validate_stt]: every transition has all of [_TRANSITION_KEYS]. *)
Definition _validate_stt (stt : list transition) : result unit :=
  if forallb (fun t =>
       forallb (fun key => bool_decide (key ∈ keys t)) _TRANSITION_KEYS) stt
  then Ok tt
  else Raise AssertionError.

Definition undefined_source_msg : string :=
  "Undefined previous source state.".
Definition undefined_dest_msg : string :=
  "Undefined destination state.".
Definition timed_msg (trigger_suffix : string) : string :=
  "A '" +:+ _TIMED_TRANSITION_PREFIX +:+ "' prefix "
  +:+ "indicates a timed transition and must be"
  +:+ "followed by a number (seconds). "
  +:+ "Invalid value: " +:+ trigger_suffix.

(** The trigger of a row, from the raw trigger cell and the destination:
    lines 148 to 164 of [_parse]. *)
Definition parse_trigger (row : list string) (dest trigger : string)
  : result string :=
  let trigger :=
    if negb (Py.truthy trigger) then _EVENT_PREFIX +:+ dest else trigger in
  if bool_decide (Py.slice_to 2 trigger = _TIMED_TRANSITION_PREFIX) then
    let trigger_suffix := Py.slice_from 2 trigger in
    match Py.int trigger_suffix with
    | None => _parse_error row (timed_msg trigger_suffix)
    | Some seconds => Ok ("(after " +:+ Py.str seconds +:+ " sec.)")
    end
  else
    first ← Py.str_first trigger;
    if bool_decide (first = _EVENT_PREFIX)
    then Ok (_EVENT_STR +:+ "_" +:+ Py.slice_from 1 trigger)
    else Ok trigger.

(** The body of the loop of [_parse]: one row, with the previous source
    that the loop carries; gives the new previous source and the
    transition that is appended. *)
Definition parse_row (previous_source : option string) (row : list string)
  : result (option string * transition) :=
  source ← Py.getitem row 0;
  dest ← Py.getitem row 1;
  trigger ← Py.getitem row 2;
  '(source, previous_source) ←
    match Py.truthy source, previous_source with
    | false, None => _parse_error row undefined_source_msg
    | false, Some previous => Ok (previous, previous_source)
    | true, _ => Ok (source, Some source)
    end;
  _ ← (if negb (Py.truthy dest)
       then _parse_error row undefined_dest_msg
       else Ok tt);
  trigger ← parse_trigger row dest trigger;
  Ok (previous_source, Transition trigger source dest).

(** The loop of [_parse] over the data rows; its state is the previous
    source and the list [stt] built so far. *)
Fixpoint parse_rows (previous_source : option string) (stt : list transition)
    (rows : list (list string))
  : result (option string * list transition) :=
  match rows with
  | [] => Ok (previous_source, stt)
  | row :: rows' =>
      '(previous_source, transition) ← parse_row previous_source row;
      parse_rows previous_source (stt ++ [transition]) rows'
  end.

Definition header_error : exn :=
  STTPError [Text "Invalid header format: "; Text "must be: ";
             ReprRow _HEADER_ROW].

(** [_parse], on the rows that [csv.reader] yields for the file. *)
Definition _parse (stt_csv : list (list string)) : result (list transition) :=
  match stt_csv with
  | [] => Raise StopIteration
  | header_row :: rows =>
      if bool_decide (header_row ≠ _HEADER_ROW) then Raise header_error
      else
        '(_, stt) ← parse_rows None [] rows;
        _ ← _validate_stt stt;
        Ok stt
  end.

(** [dictify]: [d.setdefault(t['source'], {})[t['dest']] = t['trigger']]
    for every transition, in order. *)
Definition dictify_step (d : gmap string (gmap string string))
    (t : transition) : gmap string (gmap string string) :=
  <[source t := <[dest t := trigger t]> (default ∅ (d !! source t))]> d.

Definition dictify_stt (stt : list transition)
  : gmap string (gmap string string) :=
  foldl dictify_step ∅ stt.

Definition dictify (stt_csv : list (list string))
  : result (gmap string (gmap string string)) :=
  dictify_stt <$> _parse stt_csv.

(** [d[s][dst]], when both keys are present. *)
Definition entry (d : gmap string (gmap string string)) (s dst : string)
  : option string :=
  d !! s ≫= fun inner => inner !! dst.

(** ** The error classes of the specification *)

Definition MissingSourceError (row : list string) : exn :=
  STTPError [Text _INVALID_ROW_MSG; Text ": "; ReprRow row; Text ". ";
             Text undefined_source_msg].
Definition MissingDestinationError (row : list string) : exn :=
  STTPError [Text _INVALID_ROW_MSG; Text ": "; ReprRow row; Text ". ";
             Text undefined_dest_msg].
Definition InvalidTimedTriggerError (row : list string) (suffix : string)
  : exn :=
  STTPError [Text _INVALID_ROW_MSG; Text ": "; ReprRow row; Text ". ";
             Text (timed_msg suffix)].

(** ** Notions the properties are stated with *)

(** A data row with (at least) the three cells the format prescribes. *)
Definition data_row (row : list string) : Prop := (3 <= length row)%nat.

(** The previous source after a row: the row's source cell when it is not
    empty, the one carried so far otherwise. *)
Definition carry_step (previous_source : option string) (row : list string)
  : option string :=
  match row !! 0%nat with
  | Some cell => if Py.truthy cell then Some cell else previous_source
  | None => previous_source
  end.

Definition carry (previous_source : option string) (rows : list (list string))
  : option string :=
  foldl carry_step previous_source rows.

(** The trigger of the last transition of [stt], in order, that goes from
    [s] to [dst]. *)
Fixpoint last_trigger (stt : list transition) (s dst : string)
  : option string :=
  match stt with
  | [] => None
  | t :: stt' =>
      match last_trigger stt' s dst with
      | Some x => Some x
      | None =>
          if bool_decide (source t = s /\ dest t = dst)
          then Some (trigger t) else None
      end
  end.

(** The first character of a string is an underscore. *)
Definition starts_with_underscore (s : string) : bool :=
  match s with
  | String "_" _ => true
  | _ => false
  end.


(** ** The rest of the class: file name, graph, render name *)

Module Str.

(** [c in chars] for a character [c] of a string. *)
Fixpoint mem (c : ascii) (chars : string) : bool :=
  match chars with
  | EmptyString => false
  | String c' chars' => Ascii.eqb c c' || mem c chars'
  end.

(** [s.endswith(suffix)] *)
Definition endswith (s suffix : string) : bool :=
  (String.length suffix <=? String.length s)%nat &&
  String.eqb
    (Py.slice_from (String.length s - String.length suffix) s) suffix.

(** [s.lstrip(chars)] *)
Fixpoint lstrip (chars s : string) : string :=
  match s with
  | EmptyString => EmptyString
  | String c s' => if mem c chars then lstrip chars s' else s
  end.

(** [s.rstrip(chars)] *)
Fixpoint rstrip (chars s : string) : string :=
  match s with
  | EmptyString => EmptyString
  | String c s' =>
      match rstrip chars s' with
      | EmptyString => if mem c chars then EmptyString else String c EmptyString
      | String c' r => String c (String c' r)
      end
  end.

(** [s.strip(chars)] *)
Definition strip (chars s : string) : string :=
  rstrip chars (lstrip chars s).

(** [s.replace(old, new)] for [old] and [new] of one character each. *)
Fixpoint replace (old new : ascii) (s : string) : string :=
  match s with
  | EmptyString => EmptyString
  | String c s' =>
      String (if Ascii.eqb c old then new else c) (replace old new s')
  end.

(** [s.partition(sep)[0]] for [sep] of one character: the part of [s]
    before the first [sep], all of [s] when there is none. *)
Fixpoint partition_head (sep : ascii) (s : string) : string :=
  match s with
  | EmptyString => EmptyString
  | String c s' =>
      if Ascii.eqb c sep then EmptyString
      else String c (partition_head sep s')
  end.

End Str.

Definition CSV_EXTENSION : string := ".csv".

(** [STTP.__init__]: the value of [self._stt_csv_file]. *)
Definition __init__ (stt_csv_file : string) : string :=
  if negb (Str.endswith stt_csv_file CSV_EXTENSION)
  then stt_csv_file +:+ CSV_EXTENSION
  else stt_csv_file.

(** The statements added to a [graphviz.Digraph], in order: [dot.node(name)]
    and [dot.edge(tail, head, label=label)]. *)
Inductive dot_stmt : Type :=
  | node (name : string)
  | edge (tail_name head_name label : string).

(** The loop of [_dot] over the table. *)
Definition dot_of (stt : list transition) : list dot_stmt :=
  foldl (fun dot transition =>
           let trigger := trigger transition in
           let source := source transition in
           let dest := dest transition in
           dot ++ [node source; node dest; edge source dest trigger])
        [] stt.

Definition _dot (stt_csv : list (list string)) : result (list dot_stmt) :=
  dot_of <$> _parse stt_csv.

(** The edges of a graph, in order. *)
Definition edges (dot : list dot_stmt) : list (string * string * string) :=
  omap (fun st => match st with
                  | edge a b l => Some (a, b, l)
                  | node _ => None
                  end) dot.

(** [visualize]: the name given to [render],
    [filename.strip(f'.{format}')]. *)
Definition render_name (filename format : string) : string :=
  Str.strip ("." +:+ format) filename.

(** ** The structured export: [json.dumps(dict_stt, indent=4)] *)

Module Json.

(** The values that are exported: strings, lists, and dictionaries with
    string keys, kept as the list of their items in order. *)
#[warnings="-register-all"]
Inductive value : Type :=
  | Str (s : string)
  | List (items : list value)
  | Dict (items : list (string * value)).

Definition quote : string := String "034"%char EmptyString.

(** A lower-case hexadecimal digit. *)
Definition hex_digit (n : N) : ascii :=
  ascii_of_N (if (n <? 10)%N then 48 + n else 87 + n)%N.

(** What [py_encode_basestring_ascii] writes for one character: itself when
    it is printable ASCII other than the quote and the backslash, a short
    escape for those two and for the five control characters that have one,
    and a [u]-escape of four hexadecimal digits otherwise. *)
Definition escape (c : ascii) : string :=
  let n := Py.code c in
  if (n =? 34)%N then "\" +:+ quote
  else if (n =? 92)%N then "\\"
  else if (n =? 10)%N then "\n"
  else if (n =? 13)%N then "\r"
  else if (n =? 9)%N then "\t"
  else if (n =? 8)%N then "\b"
  else if (n =? 12)%N then "\f"
  else if ((32 <=? n) && (n <=? 126))%N then String c EmptyString
  else "\u00" +:+
       String (hex_digit (n / 16)) (String (hex_digit (n mod 16)) EmptyString).

Fixpoint escape_all (s : string) : string :=
  match s with
  | EmptyString => EmptyString
  | String c s' => escape c +:+ escape_all s'
  end.

Definition encode_basestring_ascii (s : string) : string :=
  quote +:+ escape_all s +:+ quote.

(** [' ' * n] *)
Fixpoint spaces (n : nat) : string :=
  match n with
  | O => EmptyString
  | S n' => String " " (spaces n')
  end.

(** A line feed and the indentation of a level, four spaces a level. *)
Definition newline_indent (level : nat) : string :=
  String "010"%char (spaces (4 * level)).

(** [sep.join(l)] *)
Fixpoint join (sep : string) (l : list string) : string :=
  match l with
  | [] => EmptyString
  | [x] => x
  | x :: l' => x +:+ sep +:+ join sep l'
  end.

(** The text of a value at an indentation level. *)
Fixpoint encode (level : nat) (v : value) : string :=
  match v with
  | Str s => encode_basestring_ascii s
  | List [] => "[]"
  | List items =>
      "[" +:+ newline_indent (S level)
      +:+ join ("," +:+ newline_indent (S level))
               (map (encode (S level)) items)
      +:+ newline_indent level +:+ "]"
  | Dict [] => "{}"
  | Dict items =>
      "{" +:+ newline_indent (S level)
      +:+ join ("," +:+ newline_indent (S level))
               (map (fun item =>
                       let '(key, v') := item in
                       encode_basestring_ascii key +:+ ": "
                       +:+ encode (S level) v') items)
      +:+ newline_indent level +:+ "}"
  end.

(** [json.dumps(v, indent=4)] *)
Definition dumps (v : value) : string := encode 0 v.

End Json.

(** A transition as the [OrderedDict] it is. *)
Definition transition_value (t : transition) : Json.value :=
  Json.Dict [(_TRIGGER_KEY, Json.Str (trigger t));
             (_SOURCE_KEY, Json.Str (source t));
             (_DEST_KEY, Json.Str (dest t))].

(** [dict_stt = {'transitions': self._stt}] *)
Definition dict_stt (stt : list transition) : Json.value :=
  Json.Dict [("transitions", Json.List (map transition_value stt))].

(** [_json] *)
Definition _json (stt_csv : list (list string)) : result string :=
  (fun stt => Json.dumps (dict_stt stt)) <$> _parse stt_csv.

(** ** The command line: [subcommand] and the dispatch of [__main__] *)

Module Cli.

(** The default values a parameter can have. *)
Inductive value : Type :=
  | VNone
  | VBool (b : bool)
  | VStr (s : string)
  | VInt (n : Z).

(** What [subcommand] reads of a function: its name, its docstring ([None]
    when it has none), and [args] and [defaults] of its
    [inspect.getfullargspec]. *)
Record function : Type := Function {
  __name__ : string;
  __doc__ : option string;
  args : list string;
  defaults : option (list value);
}.

(** The keyword arguments given to [add_argument]; [choices] is always
    [GRAPHVIZ_RENDER_FORMATS]. *)
Inductive kwarg : Type :=
  | action (a : string)
  | default (v : value)
  | choices_GRAPHVIZ_RENDER_FORMATS.

(** One call of [parser.add_argument]. *)
Record argument : Type := Argument {
  name_or_flag : string;
  kwargs : list kwarg;
}.

(** The sub-parser made for a function: the arguments of [add_parser] and
    the calls of [add_argument], in order. *)
Record parser : Type := Parser {
  name : string;
  help : string;
  arguments : list argument;
}.

(** The bound [k] of a slice of a list of length [len]. *)
Definition slice_bound (k : Z) (len : nat) : nat :=
  if k <? 0 then Z.to_nat (Z.max 0 (Z.of_nat len + k))
  else Z.to_nat (Z.min k (Z.of_nat len)).

(** [l[:k]] and [l[k:]] *)
Definition slice_until {A : Type} (k : Z) (l : list A) : list A :=
  take (slice_bound k (length l)) l.
Definition slice_since {A : Type} (k : Z) (l : list A) : list A :=
  drop (slice_bound k (length l)) l.

(** [d[key] = v] on a [dict], kept as the list of its items in insertion
    order. *)
Fixpoint dict_set (key : string) (v : value) (d : list (string * value))
  : list (string * value) :=
  match d with
  | [] => [(key, v)]
  | (key', v') :: d' =>
      if bool_decide (key' = key) then (key', v) :: d'
      else (key', v') :: dict_set key v d'
  end.

(** [dict(pairs)] *)
Definition dict (pairs : list (string * value)) : list (string * value) :=
  foldl (fun d kv => dict_set kv.1 kv.2 d) [] pairs.

(** The keyword arguments of an optional parameter. *)
Definition argument_kwargs (optional_arg : string) (default_value : value)
  : list kwarg :=
  match default_value with
  | VNone => []
  | VBool _ => [action "store_true"]
  | _ =>
      [default default_value] ++
      (if bool_decide (optional_arg = "format")
       then [choices_GRAPHVIZ_RENDER_FORMATS] else [])
  end.

(** [subcommand(func)]: the sub-parser it registers; [None] stands for the
    [AttributeError] of [func.__doc__.partition] on a function without
    docstring. *)
Definition subcommand (func : function) : option parser :=
  doc ← __doc__ func;
  let parser_name := Str.replace "_" "-" (__name__ func) in
  let parser_help := Str.partition_head "." doc in
  let '(argspec_defaults_len, argspec_defaults) :=
    match defaults func with
    | None => (0, [])
    | Some ds => (Z.of_nat (length ds), ds)
    end in
  let positional_count :=
    Z.of_nat (length (args func)) - argspec_defaults_len in
  let func_args :=
    filter (fun arg => arg <> "self")
           (slice_until positional_count (args func)) in
  let func_kwargs :=
    dict (zip (slice_since positional_count (args func)) argspec_defaults) in
  let added :=
    foldl (fun added pos_arg =>
             added ++ [Argument (Str.replace "_" "-" pos_arg) []])
          [] func_args in
  let added :=
    foldl (fun added item =>
             let argument_flag := "--" +:+ Str.replace "_" "-" item.1 in
             added ++ [Argument argument_flag
                                (argument_kwargs item.1 item.2)])
          added func_kwargs in
  Some (Parser parser_name parser_help added).

(** [__main__]: the attribute looked up on the [STTP] object,
    [args.subcommand.replace('-', '_')]. *)
Definition command_attr (subcommand_name : string) : string :=
  Str.replace "-" "_" subcommand_name.

(** The three functions that the class decorates. *)
Definition jsonify : function :=
  Function "jsonify"
    (Some "Print the json representation of the state machine.")
    ["self"] None.
Definition dotify : function :=
  Function "dotify"
    (Some "Print the DOT language source of the state machine.")
    ["self"] None.
Definition visualize : function :=
  Function "visualize"
    (Some "Visualize the state machine.

        Args:
            format (str): 'pdf', 'png', 'svg', etc. (default: 'pdf')
            view (boolean): automatically open the resulting file
                (default: False)
        ")
    ["self"; "filename"; "format"; "view"]
    (Some [VStr "pdf"; VBool false]).

End Cli.

(** A default value with the value of a boolean forgotten. *)
Definition forget_bool (v : Cli.value) : Cli.value :=
  match v with
  | Cli.VBool _ => Cli.VBool false
  | _ => v
  end.

(** A line feed or a printable ASCII character. *)
Definition plain_ascii (c : ascii) : bool :=
  ((Py.code c =? 10) || (32 <=? Py.code c) && (Py.code c <=? 126))%N.

Fixpoint all_plain (s : string) : bool :=
  match s with
  | EmptyString => true
  | String c s' => plain_ascii c && all_plain s'
  end.

(** The value of a lower-case hexadecimal digit. *)
Definition unhex (c : ascii) : option N :=
  let n := Py.code c in
  if ((48 <=? n) && (n <=? 57))%N then Some (n - 48)%N
  else if ((97 <=? n) && (n <=? 102))%N then Some (n - 87)%N
  else None.

(** Reading back what [Json.escape] writes for one character, at the front
    of a text: the character and the rest of the text.  A quote that is not
    escaped is not read. *)
Definition unescape (text : string) : option (ascii * string) :=
  match text with
  | EmptyString => None
  | String "\" EmptyString => None
  | String "\" (String x rest) =>
      if (Py.code x =? 34)%N then Some (x, rest)
      else if (Py.code x =? 92)%N then Some (x, rest)
      else if Ascii.eqb x "n" then Some ("010"%char, rest)
      else if Ascii.eqb x "r" then Some ("013"%char, rest)
      else if Ascii.eqb x "t" then Some ("009"%char, rest)
      else if Ascii.eqb x "b" then Some ("008"%char, rest)
      else if Ascii.eqb x "f" then Some ("012"%char, rest)
      else if Ascii.eqb x "u" then
        match rest with
        | String "0" (String "0" (String h (String l rest'))) =>
            match unhex h, unhex l with
            | Some hi, Some lo => Some (ascii_of_N (16 * hi + lo), rest')
            | _, _ => None
            end
        | _ => None
        end
      else None
  | String c rest =>
      if (Py.code c =? 34)%N then None else Some (c, rest)
  end.

(** The text of one transition in the export, two levels deep. *)
Definition item_text (t : transition) : string :=
  Json.encode 2 (transition_value t).

(** The texts of the transitions, joined as the items of the list. *)
Definition items_text (stt : list transition) : string :=
  Json.join ("," +:+ Json.newline_indent 2) (map item_text stt).

(** Every character of [s] is one of [chars]. *)
Fixpoint all_in (chars s : string) : bool :=
  match s with
  | EmptyString => true
  | String c s' => Str.mem c chars && all_in chars s'
  end.

Definition first_char (s : string) : option ascii :=
  match s with
  | EmptyString => None
  | String c _ => Some c
  end.

Fixpoint last_char (s : string) : option ascii :=
  match s with
  | EmptyString => None
  | String c s' =>
      match s' with
      | EmptyString => Some c
      | String _ _ => last_char s'
      end
  end.

(** A string neither starts nor ends with one of [chars]. *)
Definition clean_ends (chars s : string) : Prop :=
  (forall c : ascii, first_char s = Some c -> Str.mem c chars = false) /\
  (forall c : ascii, last_char s = Some c -> Str.mem c chars = false).

(** * Properties *)

(** ** The built-ins on sample inputs *)

Example int_10 : Py.int "10" = Some 10.
Proof. reflexivity. Qed.
Example int_neg : Py.int " -007 " = Some (-7).
Proof. reflexivity. Qed.
Example int_us : Py.int "1_0" = Some 10 /\ Py.int "_1" = None /\ Py.int "1_" = None /\ Py.int "1__0" = None.
Proof. repeat split; reflexivity. Qed.
Example int_bad : Py.int "" = None /\ Py.int "+" = None /\ Py.int "abc" = None /\ Py.int "+ 1" = None /\ Py.int "1 2" = None.
Proof. repeat split; reflexivity. Qed.
Example str_ex : Py.str 10 = "10" /\ Py.str 0 = "0" /\ Py.str (-5) = "-5".
Proof. repeat split; reflexivity. Qed.

Example ex_table :
  _parse [_HEADER_ROW; ["Idle"; "Running"; "_start"]; [""; "Running"; "__10"];
          ["Running"; "Idle"; "stop"]] =
  Ok [Transition "EVT_start" "Idle" "Running";
      Transition "(after 10 sec.)" "Idle" "Running";
      Transition "stop" "Running" "Idle"].
Proof. vm_compute. reflexivity. Qed.

(** ** The error monad *)

Lemma bind_Ok {A B : Type} (r : result A) (f : A -> result B) (b : B) :
  r ≫= f = Ok b <-> exists a, r = Ok a /\ f a = Ok b.
Proof.
  destruct r as [a|e]; simpl; split.
  - intros H. exists a. split; [reflexivity | exact H].
  - intros (a' & Ha & Hf). injection Ha as ->. exact Hf.
  - discriminate.
  - intros (a' & Ha & _). discriminate.
Qed.

Lemma getitem_Ok (row : list string) (i : nat) (cell : string) :
  Py.getitem row i = Ok cell <-> row !! i = Some cell.
Proof.
  unfold Py.getitem. destruct (row !! i); split; congruence.
Qed.

Lemma truthy_false (s : string) : Py.truthy s = false <-> s = "".
Proof. destruct s; simpl; split; congruence. Qed.

Lemma truthy_true (s : string) : Py.truthy s = true <-> s <> "".
Proof. destruct s; simpl; split; congruence. Qed.

(** ** One row *)

(** A row of three cells or more, cell by cell. *)
Lemma parse_row_cells (previous_source : option string)
    (s d tr : string) (extra : list string) :
  parse_row previous_source (s :: d :: tr :: extra) =
  let row := s :: d :: tr :: extra in
  '(source, previous_source) ←
    match Py.truthy s, previous_source with
    | false, None => _parse_error row undefined_source_msg
    | false, Some previous => Ok (previous, previous_source)
    | true, _ => Ok (s, Some s)
    end;
  _ ← (if negb (Py.truthy d)
       then _parse_error row undefined_dest_msg
       else Ok tt);
  trigger ← parse_trigger row d tr;
  Ok (previous_source, Transition trigger source d).
Proof. reflexivity. Qed.

(** A row with fewer than three cells raises [IndexError]. *)
Lemma parse_row_short (previous_source : option string) (row : list string) :
  (length row < 3)%nat -> parse_row previous_source row = Raise IndexError.
Proof.
  intros Hlen.
  destruct row as [|s [|d [|tr extra]]]; simpl in Hlen; try lia; reflexivity.
Qed.

(** What a successful row looks like. *)
Lemma parse_row_Ok (previous_source p' : option string) (row : list string)
    (t : transition) :
  parse_row previous_source row = Ok (p', t) ->
  exists s d tr extra,
    row = s :: d :: tr :: extra /\ d <> "" /\ dest t = d /\
    (s <> "" /\ source t = s \/ s = "" /\ previous_source = Some (source t)) /\
    p' = carry_step previous_source row /\
    parse_trigger row d tr = Ok (trigger t).
Proof.
  intros H.
  destruct row as [|s [|d [|tr extra]]]; try discriminate H.
  exists s, d, tr, extra. rewrite parse_row_cells in H. cbv zeta in H.
  change (carry_step previous_source (s :: d :: tr :: extra))
    with (if Py.truthy s then Some s else previous_source).
  destruct (Py.truthy s) eqn:Hs.
  - apply truthy_true in Hs. simpl in H.
    destruct (Py.truthy d) eqn:Hd; [|discriminate H].
    apply truthy_true in Hd. simpl in H.
    destruct (parse_trigger _ d tr) as [g|e]; [|discriminate H].
    simpl in H. injection H as <- <-. simpl. auto 10.
  - apply truthy_false in Hs.
    destruct previous_source as [previous|]; [|discriminate H].
    simpl in H.
    destruct (Py.truthy d) eqn:Hd; [|discriminate H].
    apply truthy_true in Hd. simpl in H.
    destruct (parse_trigger _ d tr) as [g|e]; [|discriminate H].
    simpl in H. injection H as <- <-. simpl. auto 10.
Qed.

(** ** The trigger of a row *)

(** A raw trigger that starts with two underscores. *)
Lemma parse_trigger_timed (row : list string) (d suffix : string) :
  parse_trigger row d ("__" +:+ suffix) =
  match Py.int suffix with
  | None => Raise (InvalidTimedTriggerError row suffix)
  | Some seconds => Ok ("(after " +:+ Py.str seconds +:+ " sec.)")
  end.
Proof. reflexivity. Qed.

(** An empty raw trigger: the synthesized trigger is the destination after
    one underscore, and it is classified like any other trigger. *)
Lemma parse_trigger_empty (row : list string) (d : string) :
  parse_trigger row d "" =
  if starts_with_underscore d
  then match Py.int (Py.slice_from 1 d) with
       | None => Raise (InvalidTimedTriggerError row (Py.slice_from 1 d))
       | Some seconds => Ok ("(after " +:+ Py.str seconds +:+ " sec.)")
       end
  else Ok ("EVT_" +:+ d).
Proof.
  destruct d as [|c d'].
  - reflexivity.
  - destruct (ascii_dec c "_") as [->|Hc].
    + reflexivity.
    + assert (Hsw : starts_with_underscore (String c d') = false).
      { destruct c as [[] [] [] [] [] [] [] []]; try reflexivity.
        contradiction Hc; reflexivity. }
      rewrite Hsw. unfold parse_trigger.
      change (negb (Py.truthy "")) with true. cbv iota.
      change (_EVENT_PREFIX +:+ String c d') with (String "_" (String c d')).
      change (Py.slice_to 2 (String "_" (String c d')))
        with (String "_" (String c "")).
      rewrite bool_decide_eq_false_2; [reflexivity|].
      unfold _TIMED_TRANSITION_PREFIX. intros Heq.
      injection Heq as Heq. apply Hc. exact Heq.
Qed.

(** The trigger of a transition is never empty. *)
Lemma parse_trigger_nonempty (row : list string) (d tr g : string) :
  d <> "" -> parse_trigger row d tr = Ok g -> g <> "".
Proof.
  intros Hd. unfold parse_trigger.
  set (tr' := if negb (Py.truthy tr) then _EVENT_PREFIX +:+ d else tr).
  assert (Htr' : tr' <> "").
  { subst tr'. destruct tr; simpl; [|discriminate].
    destruct d; [congruence | discriminate]. }
  clearbody tr'.
  case_bool_decide.
  - destruct (Py.int _); [|discriminate].
    intros [= <-]. discriminate.
  - destruct tr' as [|c tr'']; [congruence|]. simpl.
    case_bool_decide; intros [= <-]; discriminate.
Qed.

(** Only the error of [parse_trigger] depends on the row. *)
Lemma parse_trigger_row (row row' : list string) (d tr g : string) :
  parse_trigger row d tr = Ok g -> parse_trigger row' d tr = Ok g.
Proof.
  unfold parse_trigger.
  case_bool_decide; [|exact (fun H => H)].
  destruct (Py.int _); [exact (fun H => H) | discriminate].
Qed.

(** ** The loop over the rows *)

Lemma parse_rows_app (previous_source : option string)
    (stt : list transition) (rows rows' : list (list string)) :
  parse_rows previous_source stt (rows ++ rows') =
  '(p, stt') ← parse_rows previous_source stt rows; parse_rows p stt' rows'.
Proof.
  revert previous_source stt.
  induction rows as [|row rows IH]; intros previous_source stt.
  - reflexivity.
  - simpl. destruct (parse_row previous_source row) as [[p t]|e]; simpl.
    + apply IH.
    + reflexivity.
Qed.

Lemma carry_snoc (previous_source : option string)
    (rows : list (list string)) (row : list string) :
  carry previous_source (rows ++ [row]) =
  carry_step (carry previous_source rows) row.
Proof. unfold carry. apply foldl_snoc. Qed.

Lemma carry_cons (previous_source : option string)
    (rows : list (list string)) (row : list string) :
  carry previous_source (row :: rows) =
  carry (carry_step previous_source row) rows.
Proof. reflexivity. Qed.

(** A successful loop: one transition per row, appended in order, each
    the result of [parse_row] on its row with the source carried so far. *)
Lemma parse_rows_Ok (previous_source p : option string)
    (stt ts : list transition) (rows : list (list string)) :
  parse_rows previous_source stt rows = Ok (p, ts) ->
  exists ts',
    ts = stt ++ ts' /\ length ts' = length rows /\
    p = carry previous_source rows /\
    forall (i : nat) (row : list string), rows !! i = Some row ->
      exists t, ts' !! i = Some t /\
        parse_row (carry previous_source (take i rows)) row =
        Ok (carry previous_source (take (S i) rows), t).
Proof.
  revert previous_source stt.
  induction rows as [|row rows IH]; intros previous_source stt H.
  - injection H as <- <-. exists []. rewrite app_nil_r.
    repeat split. intros i row Hi. destruct i; discriminate Hi.
  - simpl in H.
    destruct (parse_row previous_source row) as [[p1 t]|e] eqn:Hrow;
      [|discriminate H].
    simpl in H. apply IH in H as (ts' & -> & Hlen & -> & Hnth).
    pose proof (parse_row_Ok _ _ _ _ Hrow) as (_ & _ & _ & _ & _ & _ & _ & _ & -> & _).
    exists (t :: ts'). rewrite <- app_assoc. simpl.
    split; [reflexivity|]. split; [congruence|]. split; [reflexivity|].
    intros [|i] r Hi; simpl in Hi.
    + injection Hi as <-. exists t. split; [reflexivity|]. exact Hrow.
    + destruct (Hnth i r Hi) as (t' & Ht' & Hp). exists t'.
      split; [exact Ht'|]. exact Hp.
Qed.

(** Validation never fails: a transition has its three keys. *)
Lemma _validate_stt_Ok (stt : list transition) : _validate_stt stt = Ok tt.
Proof.
  unfold _validate_stt.
  replace (forallb _ stt) with true; [reflexivity|].
  symmetry. apply forallb_forall. intros t _. reflexivity.
Qed.

(** [_parse] under the right header is the loop. *)
Lemma _parse_header (rows : list (list string)) :
  _parse (_HEADER_ROW :: rows) =
  '(_, stt) ← parse_rows None [] rows; Ok stt.
Proof.
  unfold _parse. rewrite bool_decide_eq_false_2 by (intros H; apply H; reflexivity).
  destruct (parse_rows None [] rows) as [[p stt]|e]; simpl; [|reflexivity].
  rewrite _validate_stt_Ok. reflexivity.
Qed.

Lemma _parse_Ok (rows : list (list string)) (ts : list transition) :
  _parse (_HEADER_ROW :: rows) = Ok ts <->
  parse_rows None [] rows = Ok (carry None rows, ts).
Proof.
  rewrite _parse_header. split.
  - destruct (parse_rows None [] rows) as [[p stt]|e] eqn:H; simpl;
      [|discriminate].
    intros [= ->]. apply parse_rows_Ok in H as (_ & _ & _ & -> & _).
    reflexivity.
  - intros ->. reflexivity.
Qed.

(** The transitions of a successful parse, row by row. *)
Lemma _parse_rowwise (rows : list (list string)) (ts : list transition) :
  _parse (_HEADER_ROW :: rows) = Ok ts ->
  length ts = length rows /\
  forall (i : nat) (row : list string), rows !! i = Some row ->
    exists t, ts !! i = Some t /\
      parse_row (carry None (take i rows)) row =
      Ok (carry None (take (S i) rows), t).
Proof.
  intros H. apply _parse_Ok in H.
  apply parse_rows_Ok in H as (ts' & -> & Hlen & _ & Hnth).
  split; [exact Hlen | exact Hnth].
Qed.

(** A successful parse has read the expected header. *)
Lemma _parse_Ok_header (stt_csv : list (list string)) (ts : list transition) :
  _parse stt_csv = Ok ts -> exists rows, stt_csv = _HEADER_ROW :: rows.
Proof.
  destruct stt_csv as [|header_row rows]; [discriminate|].
  unfold _parse. case_bool_decide as Hh; [discriminate|].
  intros _. exists rows. f_equal.
  destruct (decide (header_row = _HEADER_ROW)) as [->|Hne];
    [reflexivity | contradiction].
Qed.

(** ** The carried source *)

(** A carried source is the non-empty source cell of some row, and every
    later row has no source cell or an empty one. *)
Lemma carry_Some (rows : list (list string)) (s : string) :
  carry None rows = Some s ->
  s <> "" /\
  exists (j : nat) (r : list string),
    rows !! j = Some r /\ r !! 0%nat = Some s /\
    forall (k : nat) (r' : list string) (s' : string),
      (j < k)%nat -> rows !! k = Some r' -> r' !! 0%nat = Some s' -> s' = "".
Proof.
  induction rows as [|row rows IH] using rev_ind; [discriminate|].
  rewrite carry_snoc. unfold carry_step.
  destruct (row !! 0%nat) as [cell|] eqn:Hcell.
  - destruct (Py.truthy cell) eqn:Htr.
    + intros [= ->]. split; [apply truthy_true; exact Htr|].
      exists (length rows), row. split; [apply list_lookup_middle; reflexivity|].
      split; [exact Hcell|].
      intros k r' s' Hk Hr'. apply lookup_lt_Some in Hr'.
      rewrite length_app in Hr'. simpl in Hr'. lia.
    + intros H. destruct (IH H) as (Hs & j & r & Hj & Hr & Hlater).
      split; [exact Hs|]. exists j, r.
      split; [apply lookup_app_l_Some; exact Hj|]. split; [exact Hr|].
      intros k r' s' Hk Hr' Hs'.
      destruct (decide (k < length rows)%nat) as [Hlt|Hge].
      * rewrite lookup_app_l in Hr' by exact Hlt. eapply Hlater; eassumption.
      * rewrite lookup_app_r in Hr' by lia.
        destruct (k - length rows)%nat as [|n]; [|destruct n; discriminate Hr'].
        injection Hr' as <-. rewrite Hcell in Hs'. injection Hs' as <-.
        apply truthy_false. exact Htr.
  - intros H. destruct (IH H) as (Hs & j & r & Hj & Hr & Hlater).
    split; [exact Hs|]. exists j, r.
    split; [apply lookup_app_l_Some; exact Hj|]. split; [exact Hr|].
    intros k r' s' Hk Hr' Hs'.
    destruct (decide (k < length rows)%nat) as [Hlt|Hge].
    + rewrite lookup_app_l in Hr' by exact Hlt. eapply Hlater; eassumption.
    + rewrite lookup_app_r in Hr' by lia.
      destruct (k - length rows)%nat as [|n]; [|destruct n; discriminate Hr'].
      injection Hr' as <-. congruence.
Qed.

(** When no row has a non-empty source cell, nothing is carried. *)
Lemma carry_None (rows : list (list string)) :
  (forall (r : list string) (s : string),
     r ∈ rows -> r !! 0%nat = Some s -> s = "") ->
  carry None rows = None.
Proof.
  induction rows as [|row rows IH] using rev_ind; intros H; [reflexivity|].
  rewrite carry_snoc. unfold carry_step.
  rewrite IH by (intros r s Hr; apply H; apply elem_of_app; left; exact Hr).
  destruct (row !! 0%nat) as [cell|] eqn:Hcell; [|reflexivity].
  rewrite (H row cell); [reflexivity| |exact Hcell].
  apply elem_of_app. right. apply list_elem_of_singleton. reflexivity.
Qed.

(** ** Cells after the third *)

Lemma parse_row_take3 (previous_source : option string) (row : list string)
    (r : option string * transition) :
  parse_row previous_source row = Ok r <->
  parse_row previous_source (take 3 row) = Ok r.
Proof.
  destruct row as [|s [|d [|tr extra]]]; try reflexivity.
  change (take 3 (s :: d :: tr :: extra)) with [s; d; tr].
  rewrite !parse_row_cells. cbv zeta.
  destruct (Py.truthy s), previous_source as [previous|],
    (Py.truthy d); simpl; try (split; discriminate).
  all: split;
    (destruct (parse_trigger _ d tr) as [g|e] eqn:Hg; [|discriminate];
     intros Hr; simpl in Hr;
     erewrite parse_trigger_row by exact Hg; exact Hr).
Qed.

Lemma parse_rows_take3 (previous_source : option string)
    (stt : list transition) (rows : list (list string))
    (r : option string * list transition) :
  parse_rows previous_source stt rows = Ok r <->
  parse_rows previous_source stt (map (take 3) rows) = Ok r.
Proof.
  revert previous_source stt.
  induction rows as [|row rows IH]; intros previous_source stt;
    [reflexivity|].
  simpl. rewrite !bind_Ok. split.
  - intros ([p t] & Hrow & Hrest). exists (p, t).
    split; [exact (proj1 (parse_row_take3 _ _ _) Hrow)
           | exact (proj1 (IH _ _) Hrest)].
  - intros ([p t] & Hrow & Hrest). exists (p, t).
    split; [exact (proj2 (parse_row_take3 _ _ _) Hrow)
           | exact (proj2 (IH _ _) Hrest)].
Qed.

(** ** The adjacency mapping *)

Lemma entry_dictify_step (d : gmap string (gmap string string))
    (t : transition) (s dst : string) :
  entry (dictify_step d t) s dst =
  if bool_decide (source t = s /\ dest t = dst)
  then Some (trigger t) else entry d s dst.
Proof.
  unfold entry, dictify_step.
  destruct (decide (source t = s)) as [<-|Hs].
  - rewrite lookup_insert_eq. simpl.
    destruct (decide (dest t = dst)) as [<-|Hd].
    + rewrite lookup_insert_eq.
      rewrite bool_decide_eq_true_2; [reflexivity | split; reflexivity].
    + rewrite lookup_insert_ne by exact Hd.
      rewrite bool_decide_eq_false_2 by (intros [_ ?]; contradiction).
      destruct (d !! source t); simpl; [reflexivity | apply lookup_empty].
  - rewrite lookup_insert_ne by exact Hs.
    rewrite bool_decide_eq_false_2 by (intros [? _]; contradiction).
    reflexivity.
Qed.

Lemma entry_foldl_dictify (stt : list transition)
    (d : gmap string (gmap string string)) (s dst : string) :
  entry (foldl dictify_step d stt) s dst =
  match last_trigger stt s dst with
  | Some x => Some x
  | None => entry d s dst
  end.
Proof.
  revert d. induction stt as [|t stt IH]; intros d; [reflexivity|].
  simpl. rewrite IH.
  destruct (last_trigger stt s dst); [reflexivity|].
  rewrite entry_dictify_step. case_bool_decide; reflexivity.
Qed.

(** ** A row that the loop reaches *)

(** When the rows before it parse, a row that raises makes [_parse] raise
    the same exception, whatever follows. *)
Lemma _parse_row_raise (pre post : list (list string)) (row : list string)
    (p : option string) (acc : list transition) (e : exn) :
  parse_rows None [] pre = Ok (p, acc) ->
  parse_row p row = Raise e ->
  _parse (_HEADER_ROW :: pre ++ row :: post) = Raise e.
Proof.
  intros Hpre Hrow. rewrite _parse_header, parse_rows_app, Hpre. simpl.
  rewrite Hrow. reflexivity.
Qed.

(** When the rows before it parse, a row that parses adds its transition
    at the end of the table built so far. *)
Lemma parse_rows_snoc (pre : list (list string)) (row : list string)
    (p p' : option string) (acc : list transition) (t : transition) :
  parse_rows None [] pre = Ok (p, acc) ->
  parse_row p row = Ok (p', t) ->
  parse_rows None [] (pre ++ [row]) = Ok (p', acc ++ [t]).
Proof.
  intros Hpre Hrow. rewrite parse_rows_app, Hpre. simpl.
  rewrite Hrow. reflexivity.
Qed.

(** The transition of row number [length pre] of a successful parse. *)
Lemma _parse_at (pre post : list (list string)) (row : list string)
    (ts : list transition) :
  _parse (_HEADER_ROW :: pre ++ row :: post) = Ok ts ->
  exists t, ts !! length pre = Some t /\
    parse_row (carry None pre) row = Ok (carry None (pre ++ [row]), t).
Proof.
  intros H. apply _parse_rowwise in H as [_ Hnth].
  destruct (Hnth (length pre) row) as (t & Ht & Hrow).
  { apply list_lookup_middle. reflexivity. }
  exists t. split; [exact Ht|].
  rewrite take_app_length in Hrow.
  replace (take (S (length pre)) (pre ++ row :: post)) with (pre ++ [row])
    in Hrow; [exact Hrow|].
  rewrite (cons_middle row pre post), app_assoc.
  rewrite take_app_length'; [reflexivity|].
  rewrite length_app. simpl. lia.
Qed.

(** * The claims *)

(** C2 (as stated, refuted): the table with the data rows
    [Idle,Running,_start], [,Running,__10], [Running,Idle,stop] does not
    parse to the transitions the claim lists: the second transition does
    not have the source [Running]. *)
Lemma C2_counterexample :
  _parse [_HEADER_ROW; ["Idle"; "Running"; "_start"];
          [""; "Running"; "__10"]; ["Running"; "Idle"; "stop"]] <>
  Ok [Transition "EVT_start" "Idle" "Running";
      Transition "(after 10 sec.)" "Running" "Running";
      Transition "stop" "Running" "Idle"].
Proof. vm_compute. discriminate. Qed.

(** C2 (amended): parsing the table with the header row SOURCE,DEST,TRIGGER
    and the data rows [Idle,Running,_start], [,Running,__10],
    [Running,Idle,stop] succeeds and gives exactly three transitions, in
    order: (EVT_start, Idle, Running), ((after 10 sec.), Idle, Running),
    (stop, Running, Idle).  The blank source of the second row is the source
    carried from the first row, [Idle]. *)
Theorem C2_example_table :
  _parse [_HEADER_ROW; ["Idle"; "Running"; "_start"];
          [""; "Running"; "__10"]; ["Running"; "Idle"; "stop"]] =
  Ok [Transition "EVT_start" "Idle" "Running";
      Transition "(after 10 sec.)" "Idle" "Running";
      Transition "stop" "Running" "Idle"].
Proof. vm_compute. reflexivity. Qed.

(** C9: a data row with fewer than three cells (a blank line is the row
    with no cell), reached after rows that parse, makes [_parse] raise
    [IndexError], which is not an [STTPError]: no message with the row and
    an explanation is built. *)
Theorem C9_short_row_index_error (pre post : list (list string))
    (row : list string) (p : option string) (acc : list transition) :
  parse_rows None [] pre = Ok (p, acc) ->
  (length row < 3)%nat ->
  _parse (_HEADER_ROW :: pre ++ row :: post) = Raise IndexError /\
  forall message : list fpart,
    _parse (_HEADER_ROW :: pre ++ row :: post) <> Raise (STTPError message).
Proof.
  intros Hpre Hlen.
  assert (H : _parse (_HEADER_ROW :: pre ++ row :: post) = Raise IndexError).
  { eapply _parse_row_raise; [exact Hpre|]. apply parse_row_short. exact Hlen. }
  split; [exact H|]. intros message. rewrite H. discriminate.
Qed.

Lemma C9_witness :
  _parse [_HEADER_ROW; ["A"; "B"; "go"]; []; ["B"; "C"; ""]] = Raise IndexError /\
  _parse [_HEADER_ROW; ["A"; "B"; "go"]; [""; "C"]] = Raise IndexError.
Proof.
  split.
  - apply (C9_short_row_index_error [["A"; "B"; "go"]] [["B"; "C"; ""]] []
             (Some "A") [Transition "go" "A" "B"]).
    + reflexivity.
    + simpl. lia.
  - apply (C9_short_row_index_error [["A"; "B"; "go"]] [] [""; "C"]
             (Some "A") [Transition "go" "A" "B"]).
    + reflexivity.
    + simpl. lia.
Defined.

(** C5 (as stated, refuted): a row with an empty destination cell, an empty
    source cell and no previous source does not fail with the
    missing-destination error: the source is checked first. *)
Lemma C5_counterexample :
  _parse [_HEADER_ROW; [""; ""; "go"]] = Raise (MissingSourceError [""; ""; "go"]) /\
  _parse [_HEADER_ROW; [""; ""; "go"]] <>
  Raise (MissingDestinationError [""; ""; "go"]).
Proof. split; [reflexivity | vm_compute; discriminate]. Qed.

(** C5 (amended): for every row that has its three cells, is reached after
    rows that parse, and has an empty destination cell: when its source
    cell is not empty or a previous source exists, [_parse] fails with the
    missing-destination error, whatever the trigger cell and the cells after
    it hold; when its source cell is empty and no previous source exists,
    the source is checked first and [_parse] fails with the missing-source
    error. *)
Theorem C5_empty_destination (pre post : list (list string))
    (s tr : string) (extra : list string)
    (p : option string) (acc : list transition) :
  parse_rows None [] pre = Ok (p, acc) ->
  let row := s :: "" :: tr :: extra in
  (s <> "" \/ p <> None ->
   _parse (_HEADER_ROW :: pre ++ row :: post) =
   Raise (MissingDestinationError row)) /\
  (s = "" -> p = None ->
   _parse (_HEADER_ROW :: pre ++ row :: post) =
   Raise (MissingSourceError row)).
Proof.
  intros Hpre row. split.
  - intros Hsrc. eapply _parse_row_raise; [exact Hpre|].
    subst row. rewrite parse_row_cells. cbv zeta.
    destruct (Py.truthy s) eqn:Hs; [reflexivity|].
    destruct p as [previous|]; [reflexivity|].
    apply truthy_false in Hs. destruct Hsrc; contradiction.
  - intros -> ->. eapply _parse_row_raise; [exact Hpre|]. reflexivity.
Qed.

Lemma C5_witness :
  _parse [_HEADER_ROW; ["A"; "B"; "go"]; [""; ""; "__x"]; ["B"; "C"; ""]] =
  Raise (MissingDestinationError [""; ""; "__x"]) /\
  _parse [_HEADER_ROW; [""; ""; "go"; "more"]] =
  Raise (MissingSourceError [""; ""; "go"; "more"]).
Proof.
  split.
  - apply (C5_empty_destination [["A"; "B"; "go"]] [["B"; "C"; ""]]
             "" "__x" [] (Some "A") [Transition "go" "A" "B"]).
    + reflexivity.
    + right. discriminate.
  - apply (C5_empty_destination [] [] "" "go" ["more"] None []);
      reflexivity.
Defined.

(** The loop state after rows that parse. *)
Lemma parse_rows_state (pre : list (list string)) (p : option string)
    (acc : list transition) :
  parse_rows None [] pre = Ok (p, acc) ->
  p = carry None pre /\ length acc = length pre.
Proof.
  intros H. apply parse_rows_Ok in H as (ts' & -> & Hlen & -> & _).
  split; [reflexivity | exact Hlen].
Qed.

(** A row with a resolved source, a destination and a raw trigger that
    starts with two underscores. *)
Lemma parse_row_timed (p : option string) (s d suffix src : string)
    (extra : list string) :
  (s <> "" /\ src = s \/ s = "" /\ p = Some src) ->
  d <> "" ->
  parse_row p (s :: d :: ("__" +:+ suffix) :: extra) =
  match Py.int suffix with
  | Some n =>
      Ok (Some src, Transition ("(after " +:+ Py.str n +:+ " sec.)") src d)
  | None =>
      Raise (InvalidTimedTriggerError
               (s :: d :: ("__" +:+ suffix) :: extra) suffix)
  end.
Proof.
  intros Hsrc Hd. rewrite parse_row_cells. cbv zeta.
  apply truthy_true in Hd. rewrite Hd. rewrite parse_trigger_timed.
  destruct Hsrc as [[Hs ->]|[-> ->]].
  - apply truthy_true in Hs. rewrite Hs. simpl.
    destruct (Py.int suffix); reflexivity.
  - simpl. destruct (Py.int suffix); reflexivity.
Qed.

(** C4: for every row reached after rows that parse, with a resolved source
    [src] (its own source cell, or the carried one when the cell is empty),
    a destination, and a raw trigger made of two underscores and a suffix:
    when the suffix reads as the integer [n], the row gives the transition
    with the trigger "(after n sec.)", which is the one at the row's place in
    every successful parse; when the suffix does not read as an integer,
    [_parse] fails with the invalid-timed-trigger error on this row, whose
    message ends with the suffix. *)
Theorem C4_timed_trigger (pre : list (list string)) (s d suffix src : string)
    (extra : list string) (p : option string) (acc : list transition) :
  parse_rows None [] pre = Ok (p, acc) ->
  (s <> "" /\ src = s \/ s = "" /\ p = Some src) ->
  d <> "" ->
  let row := s :: d :: ("__" +:+ suffix) :: extra in
  match Py.int suffix with
  | Some n =>
      let t := Transition ("(after " +:+ Py.str n +:+ " sec.)") src d in
      parse_rows None [] (pre ++ [row]) = Ok (Some src, acc ++ [t]) /\
      forall (post : list (list string)) (ts : list transition),
        _parse (_HEADER_ROW :: pre ++ row :: post) = Ok ts ->
        ts !! length pre = Some t
  | None =>
      forall post : list (list string),
        _parse (_HEADER_ROW :: pre ++ row :: post) =
        Raise (InvalidTimedTriggerError row suffix) /\
        exists text : string,
          InvalidTimedTriggerError row suffix =
          STTPError [Text "Invalid row"; Text ": "; ReprRow row; Text ". ";
                     Text (text +:+ "Invalid value: " +:+ suffix)]
  end.
Proof.
  intros Hpre Hsrc Hd row.
  pose proof (parse_row_timed p s d suffix src extra Hsrc Hd) as Hrow.
  fold row in Hrow.
  destruct (Py.int suffix) as [n|].
  - intros t. split.
    + eapply parse_rows_snoc; [exact Hpre | exact Hrow].
    + intros post ts Hts. apply _parse_at in Hts as (t' & Ht' & Hrow').
      apply parse_rows_state in Hpre as [-> _].
      rewrite Hrow in Hrow'. injection Hrow' as _ <-. exact Ht'.
  - intros post. split.
    + eapply _parse_row_raise; [exact Hpre | exact Hrow].
    + exists ("A '__' prefix indicates a timed transition and must be"
              +:+ "followed by a number (seconds). ").
      reflexivity.
Qed.

Lemma C4_witness :
  (parse_rows None [] [["A"; "B"; "go"]; [""; "C"; "__ 1_0"]] =
   Ok (Some "A", [Transition "go" "A" "B"; Transition "(after 10 sec.)" "A" "C"]))
  /\
  _parse [_HEADER_ROW; ["A"; "B"; "go"]; ["B"; "C"; "__abc"; "x"]; []] =
  Raise (InvalidTimedTriggerError ["B"; "C"; "__abc"; "x"] "abc").
Proof.
  split.
  - refine (proj1 (C4_timed_trigger [["A"; "B"; "go"]] "" "C" " 1_0" "A" []
                     (Some "A") [Transition "go" "A" "B"] _ _ _)).
    + reflexivity.
    + right. split; reflexivity.
    + discriminate.
  - refine (proj1 (C4_timed_trigger [["A"; "B"; "go"]] "B" "C" "abc" "B" ["x"]
                     (Some "A") [Transition "go" "A" "B"] _ _ _ [[]])).
    + reflexivity.
    + left. split; [discriminate | reflexivity].
    + discriminate.
Defined.

(** An empty trigger cell in a successful parse: the transition has the
    row's destination cell as destination and, when the destination does
    not start with an underscore, the trigger "EVT_" followed by the
    destination; when it does, the synthesized trigger starts with two
    underscores and has been read as a timed trigger. *)
Lemma auto_named_event (rows : list (list string))
    (ts : list transition) (i : nat) (row : list string) (t : transition) :
  _parse (_HEADER_ROW :: rows) = Ok ts ->
  rows !! i = Some row ->
  row !! 2%nat = Some "" ->
  ts !! i = Some t ->
  row !! 1%nat = Some (dest t) /\
  if starts_with_underscore (dest t)
  then exists n : Z,
         Py.int (Py.slice_from 1 (dest t)) = Some n /\
         trigger t = "(after " +:+ Py.str n +:+ " sec.)"
  else trigger t = "EVT_" +:+ dest t.
Proof.
  intros Hts Hi Htr Ht.
  apply _parse_rowwise in Hts as [_ Hnth].
  destruct (Hnth i row Hi) as (t' & Ht' & Hrow).
  rewrite Ht in Ht'. injection Ht' as <-.
  apply parse_row_Ok in Hrow
    as (s & d & tr & extra & -> & Hd & Hdest & _ & _ & Hg).
  simpl in Htr. injection Htr as ->. rewrite Hdest.
  split; [reflexivity|].
  rewrite parse_trigger_empty in Hg.
  destruct (starts_with_underscore d).
  - destruct (Py.int (Py.slice_from 1 d)) as [n|]; [|discriminate Hg].
    injection Hg as Hg. exists n. split; [reflexivity | symmetry; exact Hg].
  - injection Hg as Hg. symmetry. exact Hg.
Qed.

(** C1 (the code where it departs from the claim): with an empty trigger
    cell and the destination [_5], the synthesized trigger is [__5]; it is
    read as a timed trigger and the transition has the trigger
    "(after 5 sec.)", not "EVT__5".  With the destination [_x] the
    synthesized trigger is [__x] and the parse fails on a timed trigger that
    the row does not hold. *)
Theorem C1_underscore_destination :
  _parse [_HEADER_ROW; ["A"; "_5"; ""]] =
  Ok [Transition "(after 5 sec.)" "A" "_5"] /\
  "(after 5 sec.)" <> "EVT_" +:+ "_5" /\
  _parse [_HEADER_ROW; ["A"; "_x"; ""]] =
  Raise (InvalidTimedTriggerError ["A"; "_x"; ""] "x").
Proof.
  split; [reflexivity|]. split; [|reflexivity].
  vm_compute. discriminate.
Qed.

(** C3: take a data row whose source cell is empty.  In every successful
    parse, the source of its transition is the non-empty source cell of an
    earlier row, and every row between the two has an empty source cell:
    it is the nearest earlier row that gives a source.  When no earlier row
    has a non-empty source cell, [_parse] fails with the missing-source
    error, raised on the first data row (rows with the three cells of the
    format; a shorter row fails on indexing, see C9). *)
Theorem C3_source_carry_over (pre post : list (list string))
    (row : list string) :
  row !! 0%nat = Some "" ->
  (forall ts : list transition,
     _parse (_HEADER_ROW :: pre ++ row :: post) = Ok ts ->
     exists (t : transition) (j : nat) (r : list string),
       ts !! length pre = Some t /\
       pre !! j = Some r /\ r !! 0%nat = Some (source t) /\
       source t <> "" /\
       forall (k : nat) (r' : list string),
         (j < k)%nat -> pre !! k = Some r' -> r' !! 0%nat = Some "") /\
  (Forall data_row (pre ++ [row]) ->
   (forall (r : list string) (s : string),
      r ∈ pre -> r !! 0%nat = Some s -> s = "") ->
   exists r0 : list string,
     head (pre ++ [row]) = Some r0 /\
     _parse (_HEADER_ROW :: pre ++ row :: post) =
     Raise (MissingSourceError r0)).
Proof.
  intros Hcell. split.
  - intros ts Hts.
    destruct (_parse_at _ _ _ _ Hts) as (t & Ht & Hrow).
    apply parse_row_Ok in Hrow
      as (s & d & tr & extra & -> & _ & _ & Hsrc & _ & _).
    simpl in Hcell. injection Hcell as ->.
    destruct Hsrc as [[Hs _]|[_ Hcarry]]; [congruence|].
    apply carry_Some in Hcarry as (Hne & j & r & Hj & Hr & Hlater).
    exists t, j, r. repeat (split; [assumption|]).
    intros k r' Hk Hr'.
    apply _parse_rowwise in Hts as [_ Hnth].
    destruct (Hnth k r') as (t' & _ & Hrow').
    { apply lookup_app_l_Some. exact Hr'. }
    apply parse_row_Ok in Hrow' as (s' & d' & tr' & extra' & -> & _).
    simpl. f_equal. eapply Hlater; [exact Hk | exact Hr' | reflexivity].
  - intros Hshape Hnone.
    assert (Hfirst : forall (s d tr : string) (extra : list string)
                       (rest : list (list string)),
               _parse (_HEADER_ROW :: ("" :: d :: tr :: extra) :: rest) =
               Raise (MissingSourceError ("" :: d :: tr :: extra))).
    { intros _ d tr extra rest.
      apply (_parse_row_raise [] rest ("" :: d :: tr :: extra) None []);
        reflexivity. }
    destruct pre as [|r0 pre'].
    + exists row. split; [reflexivity|].
      apply Forall_inv in Hshape. unfold data_row in Hshape.
      destruct row as [|s [|d [|tr extra]]]; simpl in Hshape; try lia.
      simpl in Hcell. injection Hcell as ->. apply (Hfirst "").
    + exists r0. split; [reflexivity|].
      apply Forall_inv in Hshape. unfold data_row in Hshape.
      destruct r0 as [|s [|d [|tr extra]]]; simpl in Hshape; try lia.
      rewrite (Hnone (s :: d :: tr :: extra) s);
        [apply (Hfirst "") | apply list_elem_of_here | reflexivity].
Qed.

Lemma C3_witness :
  (exists (t : transition) (j : nat) (r : list string),
     [Transition "go" "A" "B"; Transition "EVT_C" "A" "C";
      Transition "EVT_D" "A" "D"] !! 2%nat = Some t /\
     [["A"; "B"; "go"]; [""; "C"; ""]] !! j = Some r /\
     r !! 0%nat = Some (source t) /\ source t <> "" /\
     forall (k : nat) (r' : list string),
       (j < k)%nat -> [["A"; "B"; "go"]; [""; "C"; ""]] !! k = Some r' ->
       r' !! 0%nat = Some "") /\
  (exists r0 : list string,
     head ([[""; "B"; "go"]] ++ [[""; "C"; ""]]) = Some r0 /\
     _parse (_HEADER_ROW :: [[""; "B"; "go"]] ++ [""; "C"; ""] :: []) =
     Raise (MissingSourceError r0)).
Proof.
  split.
  - apply (proj1 (C3_source_carry_over [["A"; "B"; "go"]; [""; "C"; ""]] []
                    [""; "D"; ""] eq_refl)).
    reflexivity.
  - apply (proj2 (C3_source_carry_over [[""; "B"; "go"]] [] [""; "C"; ""]
                    eq_refl)).
    + repeat constructor.
    + intros r s Hr Hs. apply list_elem_of_singleton in Hr. subst r.
      injection Hs as <-. reflexivity.
Defined.

(** C6: in every successful parse, every transition of the table has a
    non-empty trigger, a non-empty source and a non-empty destination. *)
Theorem C6_fields_nonempty (stt_csv : list (list string))
    (ts : list transition) :
  _parse stt_csv = Ok ts ->
  Forall (fun t => trigger t <> "" /\ source t <> "" /\ dest t <> "") ts.
Proof.
  intros Hts. destruct (_parse_Ok_header _ _ Hts) as [rows ->].
  apply _parse_rowwise in Hts as [Hlen Hnth].
  apply Forall_lookup_2. intros i t Ht.
  destruct (lookup_lt_is_Some_2 rows i) as [row Hrow].
  { rewrite <- Hlen. eapply lookup_lt_Some. exact Ht. }
  destruct (Hnth i row Hrow) as (t' & Ht' & Hp).
  rewrite Ht in Ht'. injection Ht' as <-.
  apply parse_row_Ok in Hp
    as (s & d & tr & extra & -> & Hd & Hdest & Hsrc & _ & Hg).
  split; [|split].
  - eapply parse_trigger_nonempty; [exact Hd | exact Hg].
  - destruct Hsrc as [[Hs ->]|[_ Hcarry]]; [exact Hs|].
    apply carry_Some in Hcarry as [Hne _]. exact Hne.
  - rewrite Hdest. exact Hd.
Qed.

Lemma C6_witness :
  Forall (fun t => trigger t <> "" /\ source t <> "" /\ dest t <> "")
    [Transition "EVT_start" "Idle" "Running";
     Transition "(after 10 sec.)" "Idle" "Running";
     Transition "stop" "Running" "Idle"].
Proof.
  apply (C6_fields_nonempty
           [_HEADER_ROW; ["Idle"; "Running"; "_start"];
            [""; "Running"; "__10"]; ["Running"; "Idle"; "stop"]]).
  reflexivity.
Defined.

(** C8: in every successful parse the table has as many transitions as the
    input has data rows, and the transition number [i] comes from the data
    row number [i]: it has the destination cell of that row as destination
    and is what the loop body gives on that row with the source carried
    from the rows before. *)
Theorem C8_one_transition_per_row (rows : list (list string))
    (ts : list transition) :
  _parse (_HEADER_ROW :: rows) = Ok ts ->
  length ts = length rows /\
  forall (i : nat) (row : list string), rows !! i = Some row ->
    exists t : transition,
      ts !! i = Some t /\ row !! 1%nat = Some (dest t) /\
      parse_row (carry None (take i rows)) row =
      Ok (carry None (take (S i) rows), t).
Proof.
  intros Hts. apply _parse_rowwise in Hts as [Hlen Hnth].
  split; [exact Hlen|]. intros i row Hrow.
  destruct (Hnth i row Hrow) as (t & Ht & Hp).
  exists t. split; [exact Ht|]. split; [|exact Hp].
  apply parse_row_Ok in Hp as (s & d & tr & extra & -> & _ & -> & _).
  reflexivity.
Qed.

Lemma C8_witness :
  length [Transition "EVT_start" "Idle" "Running";
          Transition "(after 10 sec.)" "Idle" "Running";
          Transition "stop" "Running" "Idle"] =
  length [["Idle"; "Running"; "_start"]; [""; "Running"; "__10"];
          ["Running"; "Idle"; "stop"]].
Proof.
  apply (C8_one_transition_per_row
           [["Idle"; "Running"; "_start"]; [""; "Running"; "__10"];
            ["Running"; "Idle"; "stop"]]).
  reflexivity.
Defined.

(** C7: for every table that parses, [dictify] gives a mapping whose entry
    for a source [s] and a destination [dst] is the trigger of the last
    transition, in input order, that goes from [s] to [dst] (and there is no
    entry when no transition does); in particular, when the table is the
    two transitions from [A] to [B] with the triggers [x] then [y], the
    entry for [A] and [B] is [y]. *)
Theorem C7_dictify_last_write_wins (stt_csv : list (list string))
    (stt : list transition) :
  _parse stt_csv = Ok stt ->
  exists d : gmap string (gmap string string),
    dictify stt_csv = Ok d /\
    (forall s dst : string, entry d s dst = last_trigger stt s dst) /\
    (forall A B x y : string,
       stt = [Transition x A B; Transition y A B] -> entry d A B = Some y).
Proof.
  intros Hstt. exists (dictify_stt stt). unfold dictify. rewrite Hstt.
  split; [reflexivity|].
  assert (Hentry : forall s dst : string,
             entry (dictify_stt stt) s dst = last_trigger stt s dst).
  { intros s dst. unfold dictify_stt. rewrite entry_foldl_dictify.
    destruct (last_trigger stt s dst); [reflexivity|].
    unfold entry. rewrite lookup_empty. reflexivity. }
  split; [exact Hentry|].
  intros A B x y ->. rewrite Hentry. simpl.
  rewrite bool_decide_eq_true_2; [reflexivity | split; reflexivity].
Qed.

Lemma C7_witness :
  exists d : gmap string (gmap string string),
    dictify [_HEADER_ROW; ["A"; "B"; "x"]; ["A"; "B"; "y"]] = Ok d /\
    entry d "A" "B" = Some "y".
Proof.
  destruct (C7_dictify_last_write_wins
              [_HEADER_ROW; ["A"; "B"; "x"]; ["A"; "B"; "y"]]
              [Transition "x" "A" "B"; Transition "y" "A" "B"] eq_refl)
    as (d & Hd & _ & Hlast).
  exists d. split; [exact Hd|].
  apply (Hlast "A" "B" "x" "y"). reflexivity.
Defined.

(** C10: the cells of a data row after the third are ignored.  The loop
    body succeeds on a row of more than three cells exactly when it succeeds
    on its first three cells, with the same transition and the same carried
    source; and a table parses exactly when the table with every row cut to
    its first three cells parses, to the same transitions. *)
Theorem C10_extra_cells_ignored :
  (forall (previous_source : option string) (s d tr : string)
          (extra : list string) (r : option string * transition),
     parse_row previous_source (s :: d :: tr :: extra) = Ok r <->
     parse_row previous_source [s; d; tr] = Ok r) /\
  (forall (rows : list (list string)) (ts : list transition),
     _parse (_HEADER_ROW :: rows) = Ok ts <->
     _parse (_HEADER_ROW :: map (take 3) rows) = Ok ts).
Proof.
  split.
  - intros previous_source s d tr extra r.
    apply (parse_row_take3 previous_source (s :: d :: tr :: extra) r).
  - intros rows ts. rewrite !_parse_header, !bind_Ok. split.
    + intros ([p stt] & Hrows & Hret).
      exists (p, stt). split; [|exact Hret].
      exact (proj1 (parse_rows_take3 _ _ _ _) Hrows).
    + intros ([p stt] & Hrows & Hret).
      exists (p, stt). split; [|exact Hret].
      exact (proj2 (parse_rows_take3 _ _ _ _) Hrows).
Qed.

(** C10 on a sample: a row with five cells. *)
Example C10_example :
  _parse [_HEADER_ROW; ["A"; "B"; "_go"; "x"; "__bad"]] =
  Ok [Transition "EVT_go" "A" "B"].
Proof. reflexivity. Qed.

(** * Further properties of the parser *)

(** ** How a row fails *)



(** A loop that fails has a first row that fails. *)
Lemma parse_rows_Raise (p : option string) (acc : list transition)
    (rows : list (list string)) (e : exn) :
  parse_rows p acc rows = Raise e ->
  exists (pre post : list (list string)) (row : list string)
         (p' : option string) (acc' : list transition),
    rows = pre ++ row :: post /\
    parse_rows p acc pre = Ok (p', acc') /\
    parse_row p' row = Raise e.
Proof.
  revert p acc. induction rows as [|row rows IH]; intros p acc H;
    [discriminate H|].
  simpl in H. destruct (parse_row p row) as [[p1 t]|e1] eqn:Hrow; simpl in H.
  - apply IH in H as (pre & post & r & p' & acc' & -> & Hpre & Hr).
    exists (row :: pre), post, r, p', acc'.
    split; [reflexivity|]. split; [|exact Hr].
    simpl. rewrite Hrow. simpl. exact Hpre.
  - injection H as <-. exists [], rows, row, p, acc.
    repeat split. exact Hrow.
Qed.

(** [_parse] under the right header succeeds when the loop does. *)
Lemma _parse_of_rows (rows : list (list string)) (p : option string)
    (ts : list transition) :
  parse_rows None [] rows = Ok (p, ts) -> _parse (_HEADER_ROW :: rows) = Ok ts.
Proof. intros H. rewrite _parse_header, H. reflexivity. Qed.

(** X1: a table under the right header fails with the exception [e]
    exactly when it has a first failing row: the rows before it parse, and
    the loop body raises [e] on it with the source carried so far.  The
    rows after it play no part, and no partial table is returned. *)
Theorem parse_fails_at_first_bad_row (rows : list (list string)) (e : exn) :
  _parse (_HEADER_ROW :: rows) = Raise e <->
  exists (pre post : list (list string)) (row : list string)
         (ts : list transition),
    rows = pre ++ row :: post /\
    _parse (_HEADER_ROW :: pre) = Ok ts /\
    parse_row (carry None pre) row = Raise e.
Proof.
  split.
  - rewrite _parse_header.
    destruct (parse_rows None [] rows) as [[p stt]|e'] eqn:H; simpl;
      [discriminate|].
    intros [= ->].
    apply parse_rows_Raise in H as (pre & post & row & p' & acc' & -> & Hpre & Hr).
    exists pre, post, row, acc'.
    split; [reflexivity|]. split; [eapply _parse_of_rows; exact Hpre|].
    apply parse_rows_state in Hpre as [<- _]. exact Hr.
  - intros (pre & post & row & ts & -> & Hpre & Hr).
    apply _parse_Ok in Hpre.
    eapply _parse_row_raise; [exact Hpre | exact Hr].
Qed.



(** ** Tables compose *)

(** After a row with a source cell that is not empty, the source carried
    before it does not matter. *)
Lemma parse_row_any_previous (p q p' : option string) (row : list string)
    (t : transition) :
  parse_row p row = Ok (p', t) ->
  (p = q \/ exists s, row !! 0%nat = Some s /\ s <> "") ->
  parse_row q row = Ok (p', t).
Proof.
  intros H [->|(s & Hs & Hne)]; [exact H|].
  destruct row as [|s0 [|d [|tr extra]]]; try discriminate H.
  simpl in Hs. injection Hs as ->.
  rewrite parse_row_cells in *. cbv zeta in *.
  apply truthy_true in Hne. rewrite Hne in *. exact H.
Qed.

(** The transitions a loop appends do not depend on the table built so
    far. *)
Lemma parse_rows_acc (p p' : option string) (acc acc' ts : list transition)
    (rows : list (list string)) :
  parse_rows p acc rows = Ok (p', ts) ->
  exists ts' : list transition,
    ts = acc ++ ts' /\ parse_rows p acc' rows = Ok (p', acc' ++ ts').
Proof.
  revert p acc acc'. induction rows as [|row rows IH]; intros p acc acc' H.
  - injection H as <- <-. exists []. rewrite !app_nil_r. split; reflexivity.
  - simpl in H. simpl.
    destruct (parse_row p row) as [[p1 t]|e]; [|discriminate H].
    simpl in H. simpl.
    destruct (IH _ _ (acc' ++ [t]) H) as (ts'' & -> & Hacc').
    exists (t :: ts''). rewrite <- !app_assoc in *. simpl in *.
    split; [reflexivity | exact Hacc'].
Qed.

(** A loop that succeeds from no carried source succeeds from any, with the
    same transitions: its first row gives a source. *)
Lemma parse_rows_any_previous (q p : option string)
    (acc acc' ts : list transition) (rows : list (list string)) :
  parse_rows None acc rows = Ok (p, ts) ->
  exists (p' : option string) (ts' : list transition),
    ts = acc ++ ts' /\ parse_rows q acc' rows = Ok (p', acc' ++ ts').
Proof.
  destruct rows as [|row rows].
  - intros [= <- <-]. exists q, []. rewrite !app_nil_r. split; reflexivity.
  - simpl. intros H.
    destruct (parse_row None row) as [[p1 t]|e] eqn:Hrow; [|discriminate H].
    simpl in H.
    assert (Hq : parse_row q row = Ok (p1, t)).
    { eapply parse_row_any_previous; [exact Hrow|]. right.
      apply parse_row_Ok in Hrow
        as (s & d & tr & extra & -> & _ & _ & [[Hs _]|[_ Hn]] & _);
        [|discriminate Hn].
      exists s. split; [reflexivity | exact Hs]. }
    rewrite Hq. simpl.
    destruct (parse_rows_acc _ _ _ (acc' ++ [t]) _ _ H) as (ts'' & -> & Hacc').
    exists p, (t :: ts''). rewrite <- !app_assoc in *. simpl in *.
    split; [reflexivity | exact Hacc'].
Qed.

(** X3: a table that parses still parses when rows are cut off at its end,
    to the transitions of the rows that are left. *)
Theorem parse_prefix (rows rows' : list (list string))
    (ts : list transition) :
  _parse (_HEADER_ROW :: rows ++ rows') = Ok ts ->
  _parse (_HEADER_ROW :: rows) = Ok (take (length rows) ts).
Proof.
  intros H. apply _parse_Ok in H. rewrite parse_rows_app in H.
  destruct (parse_rows None [] rows) as [[p stt]|e] eqn:Hrows;
    [|discriminate H].
  simpl in H.
  pose proof (parse_rows_state _ _ _ Hrows) as [_ Hlen].
  apply parse_rows_Ok in H as (ts' & -> & _).
  rewrite <- Hlen, take_app_length.
  eapply _parse_of_rows. exact Hrows.
Qed.

Lemma parse_prefix_witness :
  _parse [_HEADER_ROW; ["A"; "B"; ""]] =
  Ok (take 1 [Transition "EVT_B" "A" "B"; Transition "(after 3 sec.)" "A" "C"]).
Proof.
  apply (parse_prefix [["A"; "B"; ""]] [[""; "C"; "__3"]]). reflexivity.
Defined.

(** X4: two tables that parse can be put one after the other: the rows of
    the first followed by the rows of the second parse to the transitions
    of the first followed by those of the second. *)
Theorem parse_concat (rows rows' : list (list string))
    (ts ts' : list transition) :
  _parse (_HEADER_ROW :: rows) = Ok ts ->
  _parse (_HEADER_ROW :: rows') = Ok ts' ->
  _parse (_HEADER_ROW :: rows ++ rows') = Ok (ts ++ ts').
Proof.
  intros H H'. apply _parse_Ok in H, H'.
  destruct (parse_rows_any_previous (carry None rows) _ [] ts _ _ H')
    as (p' & ts'' & Hts'' & Hq).
  simpl in Hts''. subst ts''.
  eapply _parse_of_rows. rewrite parse_rows_app, H. simpl. exact Hq.
Qed.

Lemma parse_concat_witness :
  _parse (_HEADER_ROW :: [["A"; "B"; ""]; [""; "C"; "__3"]] ++ [["C"; "A"; "_back"]]) =
  Ok ([Transition "EVT_B" "A" "B"; Transition "(after 3 sec.)" "A" "C"] ++
      [Transition "EVT_back" "C" "A"]).
Proof.
  apply (parse_concat [["A"; "B"; ""]; [""; "C"; "__3"]] [["C"; "A"; "_back"]]);
    reflexivity.
Defined.

(** ** Triggers that are not timed, and source cells *)

Lemma starts_with_underscore_cons (c : ascii) (s : string) :
  starts_with_underscore (String c s) = bool_decide (String c "" = "_").
Proof.
  destruct (ascii_dec c "_") as [->|Hc]; [reflexivity|].
  rewrite bool_decide_eq_false_2 by (intros [= ?]; contradiction).
  destruct c as [[] [] [] [] [] [] [] []]; try reflexivity.
  contradiction Hc; reflexivity.
Qed.

(** A raw trigger that is not empty and does not start with two
    underscores. *)
Lemma parse_trigger_untimed (row : list string) (d tr : string) :
  tr <> "" -> Py.slice_to 2 tr <> "__" ->
  parse_trigger row d tr =
  Ok (if starts_with_underscore tr
      then "EVT_" +:+ Py.slice_from 1 tr else tr).
Proof.
  intros Htr Hpre. unfold parse_trigger.
  apply truthy_true in Htr. rewrite Htr. simpl negb. cbv iota.
  rewrite bool_decide_eq_false_2 by exact Hpre.
  destruct tr as [|c tr']; [discriminate Htr|].
  rewrite starts_with_underscore_cons. simpl.
  unfold _EVENT_PREFIX. case_bool_decide; reflexivity.
Qed.

(** The trigger of a transition does not start with an underscore. *)
Lemma parse_trigger_no_underscore (row : list string) (d tr g : string) :
  parse_trigger row d tr = Ok g -> starts_with_underscore g = false.
Proof.
  unfold parse_trigger.
  set (tr' := if negb (Py.truthy tr) then _EVENT_PREFIX +:+ d else tr).
  clearbody tr'.
  case_bool_decide.
  - destruct (Py.int _); [|discriminate]. intros [= <-]. reflexivity.
  - destruct tr' as [|c tr'']; [discriminate|]. simpl.
    case_bool_decide as Hc; intros [= <-]; [reflexivity|].
    rewrite starts_with_underscore_cons.
    apply bool_decide_eq_false_2. exact Hc.
Qed.

(** X5: in a successful parse, a trigger cell that is not empty and does not
    start with two underscores gives the trigger "EVT_" followed by the cell
    without its first character when the cell starts with an underscore,
    and the cell unchanged otherwise. *)
Theorem trigger_event_or_plain (rows : list (list string))
    (ts : list transition) (i : nat) (row : list string) (tr : string)
    (t : transition) :
  _parse (_HEADER_ROW :: rows) = Ok ts ->
  rows !! i = Some row ->
  row !! 2%nat = Some tr ->
  tr <> "" ->
  Py.slice_to 2 tr <> "__" ->
  ts !! i = Some t ->
  trigger t =
  if starts_with_underscore tr then "EVT_" +:+ Py.slice_from 1 tr else tr.
Proof.
  intros Hts Hi Hcell Htr Hpre Ht.
  apply _parse_rowwise in Hts as [_ Hnth].
  destruct (Hnth i row Hi) as (t' & Ht' & Hrow).
  rewrite Ht in Ht'. injection Ht' as <-.
  apply parse_row_Ok in Hrow
    as (s & d & tr0 & extra & -> & _ & _ & _ & _ & Hg).
  simpl in Hcell. injection Hcell as ->.
  rewrite (parse_trigger_untimed _ _ _ Htr Hpre) in Hg.
  injection Hg as Hg. symmetry. exact Hg.
Qed.

Lemma trigger_event_or_plain_witness :
  trigger (Transition "EVT_start" "A" "B") =
  (if starts_with_underscore "_start"
   then "EVT_" +:+ Py.slice_from 1 "_start" else "_start") /\
  trigger (Transition "stop now" "B" "A") =
  (if starts_with_underscore "stop now"
   then "EVT_" +:+ Py.slice_from 1 "stop now" else "stop now").
Proof.
  split.
  - apply (trigger_event_or_plain
             [["A"; "B"; "_start"]; ["B"; "A"; "stop now"]]
             [Transition "EVT_start" "A" "B"; Transition "stop now" "B" "A"]
             0%nat ["A"; "B"; "_start"]);
      [reflexivity | reflexivity | reflexivity | discriminate
       | vm_compute; discriminate | reflexivity].
  - apply (trigger_event_or_plain
             [["A"; "B"; "_start"]; ["B"; "A"; "stop now"]]
             [Transition "EVT_start" "A" "B"; Transition "stop now" "B" "A"]
             1%nat ["B"; "A"; "stop now"]);
      [reflexivity | reflexivity | reflexivity | discriminate
       | vm_compute; discriminate | reflexivity].
Defined.

(** X6: in a successful parse, a source cell that is not empty is the
    source of the transition of its row, unchanged, whatever source was
    carried before. *)
Theorem source_cell_verbatim (rows : list (list string))
    (ts : list transition) (i : nat) (row : list string) (s : string)
    (t : transition) :
  _parse (_HEADER_ROW :: rows) = Ok ts ->
  rows !! i = Some row ->
  row !! 0%nat = Some s ->
  s <> "" ->
  ts !! i = Some t ->
  source t = s /\ carry None (take (S i) rows) = Some s.
Proof.
  intros Hts Hi Hcell Hs Ht.
  apply _parse_rowwise in Hts as [_ Hnth].
  destruct (Hnth i row Hi) as (t' & Ht' & Hrow).
  rewrite Ht in Ht'. injection Ht' as <-.
  apply parse_row_Ok in Hrow
    as (s0 & d & tr & extra & -> & _ & _ & Hsrc & Hcarry & _).
  simpl in Hcell. injection Hcell as ->.
  destruct Hsrc as [[_ Hsrc]|[Hs0 _]]; [|contradiction].
  split; [exact Hsrc|].
  rewrite Hcarry. unfold carry_step. simpl.
  apply truthy_true in Hs. rewrite Hs. reflexivity.
Qed.

Lemma source_cell_verbatim_witness :
  source (Transition "EVT_A" " b " "A") = " b " /\
  carry None (take 2 [["A"; "B"; ""]; [" b "; "A"; ""]]) = Some " b ".
Proof.
  apply (source_cell_verbatim [["A"; "B"; ""]; [" b "; "A"; ""]]
           [Transition "EVT_B" "A" "B"; Transition "EVT_A" " b " "A"]
           1%nat [" b "; "A"; ""]);
    [reflexivity | reflexivity | reflexivity | discriminate | reflexivity].
Defined.

(** X7: in a successful parse no trigger starts with an underscore: the
    underscore prefixes of the input are always rewritten. *)
Theorem trigger_never_underscore (stt_csv : list (list string))
    (ts : list transition) :
  _parse stt_csv = Ok ts ->
  Forall (fun t => starts_with_underscore (trigger t) = false) ts.
Proof.
  intros Hts. destruct (_parse_Ok_header _ _ Hts) as [rows ->].
  apply _parse_rowwise in Hts as [Hlen Hnth].
  apply Forall_lookup_2. intros i t Ht.
  destruct (lookup_lt_is_Some_2 rows i) as [row Hrow].
  { rewrite <- Hlen. eapply lookup_lt_Some. exact Ht. }
  destruct (Hnth i row Hrow) as (t' & Ht' & Hp).
  rewrite Ht in Ht'. injection Ht' as <-.
  apply parse_row_Ok in Hp as (s & d & tr & extra & _ & _ & _ & _ & _ & Hg).
  eapply parse_trigger_no_underscore. exact Hg.
Qed.

Lemma trigger_never_underscore_witness :
  Forall (fun t => starts_with_underscore (trigger t) = false)
    [Transition "EVT_x" "A" "B"; Transition "EVT_" "A" "C";
     Transition "(after 2 sec.)" "A" "_D"].
Proof.
  apply (trigger_never_underscore
           [_HEADER_ROW; ["A"; "B"; "_x"]; [""; "C"; "_"];
            [""; "_D"; "__2"]]).
  vm_compute. reflexivity.
Defined.

(** ** Reading back a rendered integer *)









(** ** The keys of the adjacency mapping *)

Lemma last_trigger_is_Some (stt : list transition) (s dst : string) :
  is_Some (last_trigger stt s dst) <->
  exists t : transition, t ∈ stt /\ source t = s /\ dest t = dst.
Proof.
  induction stt as [|t stt IH]; simpl.
  - split; [intros [x Hx]; discriminate Hx|].
    intros (t & Ht & _). apply elem_of_nil in Ht. contradiction.
  - destruct (last_trigger stt s dst) as [x|].
    + split; [|intros _; eexists; reflexivity].
      intros _. destruct (proj1 IH) as (t' & Ht' & Hst); [eexists; reflexivity|].
      exists t'. split; [apply elem_of_cons; right; exact Ht' | exact Hst].
    + case_bool_decide as Hdec.
      * split; [|intros _; eexists; reflexivity].
        intros _. exists t. split; [apply list_elem_of_here | exact Hdec].
      * split; [intros [x Hx]; discriminate Hx|].
        intros (t' & Ht' & Hst). apply elem_of_cons in Ht' as [->|Ht'].
        -- contradiction.
        -- destruct (proj2 IH) as [x Hx]; [|discriminate Hx].
           exists t'. split; [exact Ht' | exact Hst].
Qed.

Lemma foldl_dictify_key (stt : list transition)
    (d : gmap string (gmap string string)) (s : string) :
  is_Some (foldl dictify_step d stt !! s) <->
  is_Some (d !! s) \/ exists t : transition, t ∈ stt /\ source t = s.
Proof.
  revert d. induction stt as [|t stt IH]; intros d; simpl.
  - split; [intros H; left; exact H|].
    intros [H|(t & Ht & _)]; [exact H|]. apply elem_of_nil in Ht. contradiction.
  - rewrite IH. unfold dictify_step. split.
    + intros [H|(t' & Ht' & Hs)].
      * destruct (decide (source t = s)) as [Heq|Hne].
        -- right. exists t. split; [apply list_elem_of_here | exact Heq].
        -- rewrite lookup_insert_ne in H by exact Hne. left. exact H.
      * right. exists t'. split; [apply elem_of_cons; right; exact Ht' | exact Hs].
    + intros [H|(t' & Ht' & Hs)].
      * left. destruct (decide (source t = s)) as [<-|Hne].
        -- rewrite lookup_insert_eq. eexists; reflexivity.
        -- rewrite lookup_insert_ne by exact Hne. exact H.
      * apply elem_of_cons in Ht' as [->|Ht'].
        -- left. rewrite <- Hs, lookup_insert_eq. eexists; reflexivity.
        -- right. exists t'. split; [exact Ht' | exact Hs].
Qed.

(** X9: the keys of the mapping that [dictify] builds are the sources of
    the table: a state that only occurs as a destination is not a key.
    Under a source, the keys are the destinations reached from it. *)
Theorem dictify_keys (stt : list transition) (s dst : string) :
  (is_Some (dictify_stt stt !! s) <->
   exists t : transition, t ∈ stt /\ source t = s) /\
  (is_Some (entry (dictify_stt stt) s dst) <->
   exists t : transition, t ∈ stt /\ source t = s /\ dest t = dst).
Proof.
  split.
  - unfold dictify_stt. rewrite foldl_dictify_key, lookup_empty.
    split; [intros [[x Hx]|H]; [discriminate Hx | exact H]|].
    intros H. right. exact H.
  - unfold dictify_stt. rewrite entry_foldl_dictify.
    rewrite <- last_trigger_is_Some.
    destruct (last_trigger stt s dst); [reflexivity|].
    unfold entry. rewrite lookup_empty. reflexivity.
Qed.

(** ** Strings *)

Lemma append_cons (c : ascii) (a b : string) :
  String c a +:+ b = String c (a +:+ b).
Proof. reflexivity. Qed.

Lemma append_nil_l (b : string) : "" +:+ b = b.
Proof. reflexivity. Qed.

Lemma append_nil_r (a : string) : a +:+ "" = a.
Proof. induction a as [|c a IH]; [reflexivity|]. rewrite append_cons, IH. reflexivity. Qed.

Lemma append_assoc (a b c : string) : (a +:+ b) +:+ c = a +:+ (b +:+ c).
Proof.
  induction a as [|x a IH]; [reflexivity|].
  rewrite !append_cons, IH. reflexivity.
Qed.

Lemma length_append (a b : string) :
  String.length (a +:+ b) = (String.length a + String.length b)%nat.
Proof.
  induction a as [|c a IH]; [reflexivity|].
  rewrite append_cons. simpl. rewrite IH. reflexivity.
Qed.

Lemma slice_from_append (a b : string) :
  Py.slice_from (String.length a) (a +:+ b) = b.
Proof.
  induction a as [|c a IH]; [destruct b; reflexivity|].
  rewrite append_cons. simpl. exact IH.
Qed.

Lemma slice_to_from (n : nat) (s : string) :
  Py.slice_to n s +:+ Py.slice_from n s = s.
Proof.
  revert s. induction n as [|n IH]; intros s.
  - destruct s; reflexivity.
  - destruct s as [|c s]; [reflexivity|].
    simpl. rewrite append_cons, IH. reflexivity.
Qed.

Lemma endswith_append (a b : string) : Str.endswith (a +:+ b) b = true.
Proof.
  unfold Str.endswith. rewrite length_append.
  apply andb_true_intro. split.
  - apply Nat.leb_le. lia.
  - replace (String.length a + String.length b - String.length b)%nat
      with (String.length a) by lia.
    rewrite slice_from_append. apply String.eqb_refl.
Qed.

Lemma endswith_true (s suffix : string) :
  Str.endswith s suffix = true <-> exists stem : string, s = stem +:+ suffix.
Proof.
  split.
  - unfold Str.endswith. intros H. apply andb_prop in H as [_ H].
    apply String.eqb_eq in H.
    exists (Py.slice_to (String.length s - String.length suffix) s).
    rewrite <- (slice_to_from (String.length s - String.length suffix) s) at 1.
    f_equal. exact H.
  - intros [stem ->]. apply endswith_append.
Qed.

(** X10: the file name that [__init__] keeps always ends with ".csv";
    a name that already ends with ".csv" is kept as it is, any other name
    gets ".csv" appended; so doing it twice changes nothing more. *)
Theorem init_file_name (stt_csv_file : string) :
  (exists stem : string, __init__ stt_csv_file = stem +:+ ".csv") /\
  (__init__ stt_csv_file = stt_csv_file <->
   exists stem : string, stt_csv_file = stem +:+ ".csv") /\
  ((forall stem : string, stt_csv_file <> stem +:+ ".csv") ->
   __init__ stt_csv_file = stt_csv_file +:+ ".csv") /\
  __init__ (__init__ stt_csv_file) = __init__ stt_csv_file.
Proof.
  unfold __init__, CSV_EXTENSION.
  destruct (Str.endswith stt_csv_file ".csv") eqn:Hends; simpl.
  - pose proof (proj1 (endswith_true _ _) Hends) as [stem Hstem].
    split; [exists stem; exact Hstem|].
    split; [split; [intros _; exists stem; exact Hstem | reflexivity]|].
    split; [intros Hno; contradiction (Hno stem Hstem)|].
    rewrite Hends. reflexivity.
  - split; [exists stt_csv_file; reflexivity|].
    split; [|split; [reflexivity|]].
    + split.
      * intros Heq. apply (f_equal String.length) in Heq.
        rewrite length_append in Heq. simpl in Heq. lia.
      * intros Hstem. apply endswith_true in Hstem. congruence.
    + rewrite endswith_append. reflexivity.
Qed.

(** ** Stripping characters *)

Lemma lstrip_spec (chars s : string) :
  exists l : string, s = l +:+ Str.lstrip chars s /\ all_in chars l = true.
Proof.
  induction s as [|c s IH]; simpl.
  - exists "". split; reflexivity.
  - destruct (Str.mem c chars) eqn:Hc.
    + destruct IH as (l & Hl & Hin). exists (String c l).
      rewrite append_cons, <- Hl. simpl. rewrite Hc, Hin. split; reflexivity.
    + exists "". split; reflexivity.
Qed.

Lemma lstrip_first (chars s : string) (c : ascii) :
  first_char (Str.lstrip chars s) = Some c -> Str.mem c chars = false.
Proof.
  induction s as [|c' s IH]; simpl; [discriminate|].
  destruct (Str.mem c' chars) eqn:Hc; [exact IH|].
  simpl. intros [= <-]. exact Hc.
Qed.

Lemma lstrip_all_in (chars l : string) :
  all_in chars l = true -> Str.lstrip chars l = "".
Proof.
  induction l as [|c l IH]; simpl; [reflexivity|].
  intros H. apply andb_prop in H as [Hc Hl]. rewrite Hc. exact (IH Hl).
Qed.

Lemma rstrip_spec (chars s : string) :
  exists r : string, s = Str.rstrip chars s +:+ r /\ all_in chars r = true.
Proof.
  induction s as [|c s IH]; simpl.
  - exists "". split; reflexivity.
  - destruct IH as (r & Hr & Hin).
    destruct (Str.rstrip chars s) as [|c' x].
    + rewrite append_nil_l in Hr. subst r.
      destruct (Str.mem c chars) eqn:Hc.
      * exists (String c s). simpl. rewrite Hc, Hin. split; reflexivity.
      * exists s. split; [reflexivity | exact Hin].
    + exists r. rewrite !append_cons. rewrite append_cons in Hr.
      rewrite <- Hr. split; [reflexivity | exact Hin].
Qed.

Lemma rstrip_last (chars s : string) (c : ascii) :
  last_char (Str.rstrip chars s) = Some c -> Str.mem c chars = false.
Proof.
  induction s as [|c' s IH]; simpl; [discriminate|].
  destruct (Str.rstrip chars s) as [|c'' x].
  - destruct (Str.mem c' chars) eqn:Hc; simpl; [discriminate|].
    intros [= <-]. exact Hc.
  - exact IH.
Qed.

Lemma rstrip_first (chars s : string) (c : ascii) :
  first_char (Str.rstrip chars s) = Some c -> first_char s = Some c.
Proof.
  destruct s as [|c' s]; simpl; [discriminate|].
  destruct (Str.rstrip chars s) as [|c'' x].
  - destruct (Str.mem c' chars); simpl; [discriminate | exact (fun H => H)].
  - exact (fun H => H).
Qed.

Lemma rstrip_all_in (chars r : string) :
  all_in chars r = true -> Str.rstrip chars r = "".
Proof.
  induction r as [|c r IH]; simpl; [reflexivity|].
  intros H. apply andb_prop in H as [Hc Hr]. rewrite (IH Hr), Hc. reflexivity.
Qed.

Lemma rstrip_append_all_in (chars x r : string) :
  all_in chars r = true -> Str.rstrip chars (x +:+ r) = Str.rstrip chars x.
Proof.
  intros Hr. induction x as [|c x IH].
  - rewrite append_nil_l. apply rstrip_all_in. exact Hr.
  - rewrite append_cons. simpl. rewrite IH. reflexivity.
Qed.

Lemma rstrip_clean (chars x : string) :
  (forall c : ascii, last_char x = Some c -> Str.mem c chars = false) ->
  Str.rstrip chars x = x.
Proof.
  induction x as [|c x IH]; [reflexivity|].
  intros Hlast. simpl. destruct x as [|c' x'].
  - simpl. rewrite (Hlast c); reflexivity.
  - rewrite IH by exact Hlast. reflexivity.
Qed.

Lemma all_in_weaken (c : ascii) (chars s : string) :
  all_in chars s = true -> all_in (String c chars) s = true.
Proof.
  induction s as [|c' s IH]; simpl; [reflexivity|].
  intros H. apply andb_prop in H as [Hc Hs].
  rewrite Hc, (IH Hs), orb_true_r. reflexivity.
Qed.

Lemma all_in_refl (s : string) : all_in s s = true.
Proof.
  induction s as [|c s IH]; [reflexivity|].
  simpl. rewrite Ascii.eqb_refl. simpl. apply all_in_weaken. exact IH.
Qed.

(** X11: when the stem of a file name neither starts nor ends with a dot or
    a character of the format, [visualize] renders under the stem: the
    extension is taken off. *)
Theorem render_name_clean_stem (stem format : string) :
  clean_ends ("." +:+ format) stem ->
  render_name (stem +:+ "." +:+ format) format = stem.
Proof.
  unfold render_name, Str.strip.
  generalize ("." +:+ format). intros chars [Hfirst Hlast].
  assert (Hin : all_in chars chars = true) by apply all_in_refl.
  destruct stem as [|c stem'].
  - rewrite append_nil_l.
    rewrite (lstrip_all_in _ _ Hin). reflexivity.
  - assert (Hl : Str.lstrip chars (String c stem' +:+ chars) =
                 String c stem' +:+ chars).
    { rewrite append_cons. simpl Str.lstrip.
      rewrite (Hfirst c); reflexivity. }
    rewrite Hl.
    rewrite (rstrip_append_all_in _ _ _ Hin).
    apply rstrip_clean. exact Hlast.
Qed.

Lemma render_name_clean_stem_witness :
  render_name ("out/machine" +:+ "." +:+ "svg") "svg" = "out/machine".
Proof.
  apply (render_name_clean_stem "out/machine" "svg").
  split; intros c [= <-]; reflexivity.
Defined.

(** X12: the name that [visualize] renders under is the file name without
    the dots and the characters of the format at its two ends, as many as
    there are: what is taken off consists of such characters only, and what
    is left neither starts nor ends with one.  So a stem that ends with a
    character of the format loses it. *)
Theorem render_name_strips_characters (filename format : string) :
  exists l r : string,
    filename = l +:+ render_name filename format +:+ r /\
    all_in ("." +:+ format) l = true /\
    all_in ("." +:+ format) r = true /\
    clean_ends ("." +:+ format) (render_name filename format).
Proof.
  unfold render_name, Str.strip. set (chars := "." +:+ format).
  destruct (lstrip_spec chars filename) as (l & Hl & Hlin).
  destruct (rstrip_spec chars (Str.lstrip chars filename)) as (r & Hr & Hrin).
  exists l, r. split; [|split; [exact Hlin|split; [exact Hrin|]]].
  - rewrite <- Hr. exact Hl.
  - split.
    + intros c Hc. apply rstrip_first in Hc. eapply lstrip_first. exact Hc.
    + intros c Hc. eapply rstrip_last. exact Hc.
Qed.

(** A stem that ends with a character of the format: two letters are lost
    with the extension. *)
Example render_name_lossy : render_name "mapped.pdf" "pdf" = "mappe".
Proof. reflexivity. Qed.

(** ** The graph *)

Lemma foldl_snoc_map {A B : Type} (f : A -> list B) (init : list B)
    (l : list A) :
  foldl (fun acc x => acc ++ f x) init l = init ++ concat (map f l).
Proof.
  revert init. induction l as [|x l IH]; intros init; simpl.
  - rewrite app_nil_r. reflexivity.
  - rewrite IH, app_assoc. reflexivity.
Qed.

Lemma dot_of_cons (t : transition) (stt : list transition) :
  dot_of (t :: stt) =
  node (source t) :: node (dest t) :: edge (source t) (dest t) (trigger t)
  :: dot_of stt.
Proof.
  unfold dot_of. rewrite !foldl_snoc_map. reflexivity.
Qed.

(** X13: the graph of a table that parses has one edge per transition, in
    the order of the table, from the source to the destination and labelled
    with the trigger: transitions between the same two states stay
    separate edges. *)
Theorem dot_edges (stt_csv : list (list string)) (stt : list transition) :
  _parse stt_csv = Ok stt ->
  exists dot : list dot_stmt,
    _dot stt_csv = Ok dot /\
    edges dot = map (fun t => (source t, dest t, trigger t)) stt.
Proof.
  intros H. exists (dot_of stt). unfold _dot. rewrite H.
  split; [reflexivity|]. clear H.
  induction stt as [|t stt IH]; [reflexivity|].
  rewrite dot_of_cons.
  change (edges (node (source t) :: node (dest t)
                 :: edge (source t) (dest t) (trigger t) :: dot_of stt))
    with ((source t, dest t, trigger t) :: edges (dot_of stt)).
  rewrite IH. reflexivity.
Qed.

Lemma dot_edges_witness :
  exists dot : list dot_stmt,
    _dot [_HEADER_ROW; ["A"; "B"; "x"]; [""; "B"; "y"]] = Ok dot /\
    edges dot =
    map (fun t => (source t, dest t, trigger t))
        [Transition "x" "A" "B"; Transition "y" "A" "B"].
Proof.
  apply (dot_edges [_HEADER_ROW; ["A"; "B"; "x"]; [""; "B"; "y"]]).
  reflexivity.
Defined.

(** X14: in the graph of a table, the two ends of every edge are
    registered as nodes before the edge is added, and the registered nodes
    are exactly the states that occur as source or destination. *)
Theorem dot_nodes (stt : list transition) :
  (forall (i : nat) (a b l : string),
     dot_of stt !! i = Some (edge a b l) ->
     exists j k : nat,
       (j < i)%nat /\ (k < i)%nat /\
       dot_of stt !! j = Some (node a) /\ dot_of stt !! k = Some (node b)) /\
  (forall n : string,
     node n ∈ dot_of stt <->
     exists t : transition, t ∈ stt /\ (source t = n \/ dest t = n)).
Proof.
  split.
  - induction stt as [|t stt IH]; intros i a b l Hi.
    + destruct i; discriminate Hi.
    + rewrite dot_of_cons in *.
      destruct i as [|[|[|i]]]; simpl in Hi; try discriminate Hi.
      * injection Hi as <- <- <-. exists 0%nat, 1%nat.
        repeat split; try lia.
      * destruct (IH i a b l Hi) as (j & k & Hj & Hk & Hja & Hkb).
        exists (S (S (S j))), (S (S (S k))).
        repeat split; try lia; assumption.
  - intros n. induction stt as [|t stt IH].
    + split; [intros H; apply elem_of_nil in H; contradiction|].
      intros (t & Ht & _). apply elem_of_nil in Ht. contradiction.
    + rewrite dot_of_cons. split.
      * intros H. apply elem_of_cons in H as [[= ->]|H].
        { exists t. split; [apply list_elem_of_here | left; reflexivity]. }
        apply elem_of_cons in H as [[= ->]|H].
        { exists t. split; [apply list_elem_of_here | right; reflexivity]. }
        apply elem_of_cons in H as [H|H]; [discriminate H|].
        apply IH in H as (t' & Ht' & Hn).
        exists t'. split; [apply elem_of_cons; right; exact Ht' | exact Hn].
      * intros (t' & Ht' & Hn). apply elem_of_cons in Ht' as [->|Ht'].
        -- destruct Hn as [<-|<-].
           ++ apply list_elem_of_here.
           ++ apply elem_of_cons. right. apply list_elem_of_here.
        -- do 3 (apply elem_of_cons; right). apply IH.
           exists t'. split; [exact Ht' | exact Hn].
Qed.

(** ** The command line *)

Lemma ascii_eqb_sym (a b : ascii) : Ascii.eqb a b = Ascii.eqb b a.
Proof.
  destruct (Ascii.eqb_spec a b) as [->|Hne].
  - symmetry. apply Ascii.eqb_refl.
  - symmetry. apply Ascii.eqb_neq. congruence.
Qed.

Lemma mem_replace_old (old new : ascii) (s : string) :
  old <> new -> Str.mem old (Str.replace old new s) = false.
Proof.
  intros Hne. induction s as [|c s IH]; [reflexivity|].
  simpl. rewrite IH, orb_false_r.
  destruct (Ascii.eqb_spec c old) as [->|Hc].
  - apply Ascii.eqb_neq. exact Hne.
  - apply Ascii.eqb_neq. congruence.
Qed.

Lemma replace_round_trip (old new : ascii) (s : string) :
  Str.mem new s = false ->
  Str.replace new old (Str.replace old new s) = s.
Proof.
  induction s as [|c s IH]; [reflexivity|].
  simpl. intros H. apply orb_false_elim in H as [Hc Hs].
  rewrite (IH Hs). f_equal.
  destruct (Ascii.eqb_spec c old) as [->|Hco].
  - rewrite Ascii.eqb_refl. reflexivity.
  - rewrite ascii_eqb_sym, Hc. reflexivity.
Qed.

Lemma mem_partition_head (sep : ascii) (s : string) :
  Str.mem sep (Str.partition_head sep s) = false.
Proof.
  induction s as [|c s IH]; [reflexivity|].
  simpl. destruct (Ascii.eqb_spec c sep) as [->|Hc]; [reflexivity|].
  simpl. rewrite IH, orb_false_r. apply Ascii.eqb_neq. congruence.
Qed.

Lemma foldl_snoc_one {A B : Type} (g : A -> B) (init : list B) (l : list A) :
  foldl (fun acc x => acc ++ [g x]) init l = init ++ map g l.
Proof.
  revert init. induction l as [|x l IH]; intros init; simpl.
  - rewrite app_nil_r. reflexivity.
  - rewrite IH, <- app_assoc. reflexivity.
Qed.

(** The sub-parser of a function, loops unrolled. *)
Lemma subcommand_Some (func : Cli.function) (p : Cli.parser) :
  Cli.subcommand func = Some p ->
  exists (doc : string) (func_args : list string)
         (func_kwargs : list (string * Cli.value)),
    Cli.__doc__ func = Some doc /\
    Cli.name p = Str.replace "_" "-" (Cli.__name__ func) /\
    Cli.help p = Str.partition_head "." doc /\
    Forall (fun arg => arg <> "self") func_args /\
    Cli.arguments p =
    map (fun arg => Cli.Argument (Str.replace "_" "-" arg) []) func_args ++
    map (fun item => Cli.Argument ("--" +:+ Str.replace "_" "-" item.1)
                                  (Cli.argument_kwargs item.1 item.2))
        func_kwargs.
Proof.
  unfold Cli.subcommand. destruct (Cli.__doc__ func) as [doc|]; [|discriminate].
  simpl. destruct (Cli.defaults func) as [ds|]; intros [= <-]; simpl.
  all: rewrite !foldl_snoc_one.
  all: eexists doc, _, _.
  all: split; [reflexivity|]; split; [reflexivity|]; split; [reflexivity|].
  all: split; [|reflexivity].
  all: apply Forall_forall; intros x Hx.
  all: apply list_elem_of_filter in Hx as [Hx _]; exact Hx.
Qed.

(** X15: the sub-parser of a function is named after it with dashes for
    underscores, and [__main__] finds the function again: for a function
    name without dash (as every identifier is), turning the dashes of the
    sub-command name into underscores gives the function name. *)
Theorem command_attr_round_trip (func : Cli.function) (p : Cli.parser) :
  Cli.subcommand func = Some p ->
  Str.mem "-" (Cli.__name__ func) = false ->
  Str.mem "_" (Cli.name p) = false /\
  Cli.command_attr (Cli.name p) = Cli.__name__ func.
Proof.
  intros Hp Hname.
  apply subcommand_Some in Hp as (doc & fa & fk & _ & -> & _).
  split.
  - apply mem_replace_old. discriminate.
  - unfold Cli.command_attr. apply replace_round_trip. exact Hname.
Qed.

Lemma command_attr_round_trip_witness :
  Str.mem "_" (Cli.name (Cli.Parser "to-dot-file" "Write" [])) = false /\
  Cli.command_attr (Cli.name (Cli.Parser "to-dot-file" "Write" [])) =
  Cli.__name__ (Cli.Function "to_dot_file" (Some "Write.") ["self"] None).
Proof.
  apply (command_attr_round_trip
           (Cli.Function "to_dot_file" (Some "Write.") ["self"] None));
    reflexivity.
Defined.

Lemma replace_without_new (old new : ascii) (s t : string) :
  Str.replace old new s = t -> Str.mem new t = false -> s = t.
Proof.
  revert t. induction s as [|c s IH]; intros t; simpl.
  - intros <-. reflexivity.
  - intros <-. simpl. intros H. apply orb_false_elim in H as [Hc Hs].
    rewrite (IH _ eq_refl Hs) at 1. f_equal.
    destruct (Ascii.eqb_spec c old) as [->|Hco]; [|reflexivity].
    rewrite Ascii.eqb_refl in Hc. discriminate Hc.
Qed.

(** X16: the names that [subcommand] gives to [add_argument] hold no
    underscore, and none of them is [self]; the help text of the
    sub-parser holds no dot (it is the docstring up to its first dot). *)
Theorem argument_names (func : Cli.function) (p : Cli.parser) :
  Cli.subcommand func = Some p ->
  Str.mem "." (Cli.help p) = false /\
  forall a : Cli.argument, a ∈ Cli.arguments p ->
    Str.mem "_" (Cli.name_or_flag a) = false /\ Cli.name_or_flag a <> "self".
Proof.
  intros Hp.
  apply subcommand_Some in Hp as (doc & fa & fk & _ & _ & -> & Hself & ->).
  split; [apply mem_partition_head|].
  intros a Ha. apply elem_of_app in Ha as [Ha|Ha].
  - apply list_elem_of_fmap in Ha as (arg & -> & Harg). simpl. split.
    + apply mem_replace_old. discriminate.
    + intros Heq. rewrite Forall_forall in Hself.
      apply (Hself arg Harg).
      apply (replace_without_new "_" "-" arg "self" Heq). reflexivity.
  - apply list_elem_of_fmap in Ha as (item & -> & _). simpl. split.
    + change (Str.mem "_" ("--" +:+ Str.replace "_" "-" item.1))
        with (Str.mem "_" (Str.replace "_" "-" item.1)).
      apply mem_replace_old. discriminate.
    + discriminate.
Qed.

Lemma argument_names_witness :
  Str.mem "." (Cli.help (Cli.Parser "visualize" "Visualize the state machine"
     [Cli.Argument "filename" [];
      Cli.Argument "--format"
        [Cli.default (Cli.VStr "pdf"); Cli.choices_GRAPHVIZ_RENDER_FORMATS];
      Cli.Argument "--view" [Cli.action "store_true"]])) = false.
Proof.
  apply (argument_names Cli.visualize). reflexivity.
Defined.

(** The sub-parsers of the three decorated methods. *)
Example subcommand_jsonify :
  Cli.subcommand Cli.jsonify =
  Some (Cli.Parser "jsonify"
          "Print the json representation of the state machine" []).
Proof. reflexivity. Qed.

Example subcommand_dotify :
  Cli.subcommand Cli.dotify =
  Some (Cli.Parser "dotify"
          "Print the DOT language source of the state machine" []).
Proof. reflexivity. Qed.

Example subcommand_visualize :
  Cli.subcommand Cli.visualize =
  Some (Cli.Parser "visualize" "Visualize the state machine"
     [Cli.Argument "filename" [];
      Cli.Argument "--format"
        [Cli.default (Cli.VStr "pdf"); Cli.choices_GRAPHVIZ_RENDER_FORMATS];
      Cli.Argument "--view" [Cli.action "store_true"]]).
Proof. reflexivity. Qed.

Lemma dict_set_fresh (key : string) (v : Cli.value)
    (d : list (string * Cli.value)) :
  key ∉ d.*1 -> Cli.dict_set key v d = d ++ [(key, v)].
Proof.
  induction d as [|[key' v'] d IH]; intros Hfresh; [reflexivity|].
  simpl in *. apply not_elem_of_cons in Hfresh as [Hne Hfresh].
  rewrite bool_decide_eq_false_2 by congruence.
  rewrite (IH Hfresh). reflexivity.
Qed.

(** [dict] of pairs with distinct keys keeps the pairs. *)
Lemma dict_NoDup (pairs : list (string * Cli.value)) :
  NoDup pairs.*1 -> Cli.dict pairs = pairs.
Proof.
  unfold Cli.dict.
  induction pairs as [|[key v] pairs IH] using rev_ind; [reflexivity|].
  rewrite fmap_app. intros Hnd. apply NoDup_app in Hnd as (Hnd & Hfresh & _).
  rewrite foldl_snoc, (IH Hnd). simpl.
  apply dict_set_fresh. intros Hin. apply (Hfresh key Hin).
  simpl. apply list_elem_of_here.
Qed.

(** X17: for a function with a docstring whose parameters have distinct
    names, the last of them having the defaults, [subcommand] adds one
    positional argument for every parameter without default except [self],
    then one flag for every parameter with a default, in the order of the
    signature and with the default of that parameter. *)
Theorem subcommand_arguments (func : Cli.function) (doc : string) :
  Cli.__doc__ func = Some doc ->
  let ds := default [] (Cli.defaults func) in
  let n := (length (Cli.args func) - length ds)%nat in
  (length ds <= length (Cli.args func))%nat ->
  NoDup (Cli.args func) ->
  exists p : Cli.parser,
    Cli.subcommand func = Some p /\
    Cli.arguments p =
    map (fun arg => Cli.Argument (Str.replace "_" "-" arg) [])
        (filter (fun arg => arg <> "self") (take n (Cli.args func))) ++
    map (fun item => Cli.Argument ("--" +:+ Str.replace "_" "-" item.1)
                                  (Cli.argument_kwargs item.1 item.2))
        (zip (drop n (Cli.args func)) ds).
Proof.
  intros Hdoc ds n Hlen Hnd.
  assert (Hbound : Cli.slice_bound
                     (Z.of_nat (length (Cli.args func)) - Z.of_nat (length ds))
                     (length (Cli.args func)) = n).
  { unfold Cli.slice_bound, n.
    destruct (Z.ltb_spec
                (Z.of_nat (length (Cli.args func)) - Z.of_nat (length ds)) 0);
      lia. }
  assert (Hdict : Cli.dict (zip (drop n (Cli.args func)) ds) =
                  zip (drop n (Cli.args func)) ds).
  { apply dict_NoDup. rewrite fst_zip.
    - apply (sublist_NoDup _ (Cli.args func)); [exact Hnd | apply sublist_drop].
    - rewrite length_drop. unfold n. lia. }
  unfold Cli.subcommand. rewrite Hdoc. simpl.
  subst ds. destruct (Cli.defaults func) as [ds|]; simpl in *.
  - eexists. split; [reflexivity|]. simpl.
    unfold Cli.slice_until, Cli.slice_since. rewrite Hbound, Hdict.
    rewrite !foldl_snoc_one. reflexivity.
  - eexists. split; [reflexivity|]. simpl.
    unfold Cli.slice_until, Cli.slice_since.
    replace (Z.of_nat (length (Cli.args func)) - 0)
      with (Z.of_nat (length (Cli.args func)) - Z.of_nat 0) by lia.
    rewrite Hbound, Hdict.
    rewrite !foldl_snoc_one. reflexivity.
Qed.

Lemma subcommand_arguments_witness :
  exists p : Cli.parser,
    Cli.subcommand Cli.visualize = Some p /\
    Cli.arguments p =
    [Cli.Argument "filename" [];
     Cli.Argument "--format"
       [Cli.default (Cli.VStr "pdf"); Cli.choices_GRAPHVIZ_RENDER_FORMATS];
     Cli.Argument "--view" [Cli.action "store_true"]].
Proof.
  refine (subcommand_arguments Cli.visualize _ eq_refl _ _).
  - simpl. lia.
  - apply (bool_decide_unpack _). vm_compute. exact I.
Defined.

Lemma zip_fmap_values {A B C : Type} (g : B -> C) (l : list A) (k : list B) :
  zip l (g <$> k) = prod_map id g <$> zip l k.
Proof.
  revert k. induction l as [|x l IH]; intros [|y k]; simpl; try reflexivity.
  rewrite IH. reflexivity.
Qed.

Lemma dict_set_fmap (g : Cli.value -> Cli.value) (key : string)
    (v : Cli.value) (d : list (string * Cli.value)) :
  Cli.dict_set key (g v) (prod_map id g <$> d) =
  prod_map id g <$> Cli.dict_set key v d.
Proof.
  induction d as [|[key' v'] d IH]; [reflexivity|].
  simpl. case_bool_decide; simpl; [reflexivity|].
  f_equal. exact IH.
Qed.

Lemma dict_fmap (g : Cli.value -> Cli.value)
    (pairs : list (string * Cli.value)) :
  Cli.dict (prod_map id g <$> pairs) = prod_map id g <$> Cli.dict pairs.
Proof.
  unfold Cli.dict.
  induction pairs as [|[key v] pairs IH] using rev_ind; [reflexivity|].
  rewrite fmap_app.
  change (prod_map id g <$> [(key, v)]) with [(key, g v)].
  rewrite !foldl_snoc, IH. simpl. apply dict_set_fmap.
Qed.

Lemma argument_kwargs_forget_bool (optional_arg : string) (v : Cli.value) :
  Cli.argument_kwargs optional_arg (forget_bool v) =
  Cli.argument_kwargs optional_arg v.
Proof. destruct v; reflexivity. Qed.

(** X18: the value of a boolean default is not used: two functions that
    differ only in the values of their boolean defaults get the same
    sub-parser, with a [store_true] flag for the parameter, so a default of
    [True] is not passed on. *)
Theorem bool_default_ignored (fname : string) (doc : option string)
    (fargs : list string) (ds : list Cli.value) :
  Cli.subcommand (Cli.Function fname doc fargs (Some (forget_bool <$> ds))) =
  Cli.subcommand (Cli.Function fname doc fargs (Some ds)).
Proof.
  unfold Cli.subcommand. destruct doc as [doc|]; [|reflexivity]. simpl.
  rewrite length_fmap, zip_fmap_values, dict_fmap.
  rewrite !foldl_snoc_one. do 3 f_equal.
  rewrite <- list_fmap_compose. apply list_fmap_ext.
  intros i [key v] _. simpl. rewrite argument_kwargs_forget_bool. reflexivity.
Qed.

Example bool_default_true :
  Cli.subcommand
    (Cli.Function "visualize" (Some "Visualize.")
       ["self"; "filename"; "view"] (Some [Cli.VBool true])) =
  Some (Cli.Parser "visualize" "Visualize"
          [Cli.Argument "filename" [];
           Cli.Argument "--view" [Cli.action "store_true"]]).
Proof. reflexivity. Qed.

(** ** The structured export *)

Lemma all_plain_append (a b : string) :
  all_plain (a +:+ b) = all_plain a && all_plain b.
Proof.
  induction a as [|c a IH]; [reflexivity|].
  rewrite append_cons. simpl. rewrite IH, andb_assoc. reflexivity.
Qed.

Lemma all_plain_escape (c : ascii) : all_plain (Json.escape c) = true.
Proof. destruct c as [[] [] [] [] [] [] [] []]; vm_compute; reflexivity. Qed.

Lemma all_plain_escape_all (s : string) :
  all_plain (Json.escape_all s) = true.
Proof.
  induction s as [|c s IH]; [reflexivity|].
  simpl. rewrite all_plain_append, all_plain_escape, IH. reflexivity.
Qed.

Lemma all_plain_encode_string (s : string) :
  all_plain (Json.encode_basestring_ascii s) = true.
Proof.
  unfold Json.encode_basestring_ascii.
  rewrite !all_plain_append, all_plain_escape_all. reflexivity.
Qed.

Lemma unescape_escape (c : ascii) (rest : string) :
  unescape (Json.escape c +:+ rest) = Some (c, rest).
Proof. destruct c as [[] [] [] [] [] [] [] []]; vm_compute; reflexivity. Qed.

Lemma unescape_quote (rest : string) : unescape (Json.quote +:+ rest) = None.
Proof. reflexivity. Qed.

(** The text of the export, piece by piece. *)
Lemma dumps_dict_stt (stt : list transition) :
  Json.dumps (dict_stt stt) =
  match stt with
  | [] =>
      "{" +:+ Json.newline_indent 1 +:+
      Json.encode_basestring_ascii "transitions" +:+ ": " +:+ "[]" +:+
      Json.newline_indent 0 +:+ "}"
  | _ :: _ =>
      "{" +:+ Json.newline_indent 1 +:+
      Json.encode_basestring_ascii "transitions" +:+ ": " +:+ "[" +:+
      Json.newline_indent 2 +:+ items_text stt +:+
      Json.newline_indent 1 +:+ "]" +:+ Json.newline_indent 0 +:+ "}"
  end.
Proof.
  destruct stt as [|t stt]; [reflexivity|].
  unfold items_text, item_text. rewrite <- (map_map transition_value).
  change (Json.dumps (dict_stt (t :: stt)))
    with ("{" +:+ Json.newline_indent 1 +:+
          (Json.encode_basestring_ascii "transitions" +:+ ": " +:+
           "[" +:+ Json.newline_indent 2 +:+
           Json.join ("," +:+ Json.newline_indent 2)
             (map (Json.encode 2) (map transition_value (t :: stt))) +:+
           Json.newline_indent 1 +:+ "]") +:+
          Json.newline_indent 0 +:+ "}").
  rewrite !append_assoc. reflexivity.
Qed.

Lemma item_text_append (t : transition) (r : string) :
  item_text t +:+ r =
  "{" +:+ Json.newline_indent 3 +:+
  Json.encode_basestring_ascii "trigger" +:+ ": " +:+
  Json.encode_basestring_ascii (trigger t) +:+ "," +:+
  Json.newline_indent 3 +:+
  Json.encode_basestring_ascii "source" +:+ ": " +:+
  Json.encode_basestring_ascii (source t) +:+ "," +:+
  Json.newline_indent 3 +:+
  Json.encode_basestring_ascii "dest" +:+ ": " +:+
  Json.encode_basestring_ascii (dest t) +:+
  Json.newline_indent 2 +:+ "}" +:+ r.
Proof.
  unfold item_text, transition_value. simpl Json.encode.
  unfold _TRIGGER_KEY, _SOURCE_KEY, _DEST_KEY.
  rewrite !append_assoc. reflexivity.
Qed.

Lemma items_text_cons2 (t t' : transition) (stt : list transition) :
  items_text (t :: t' :: stt) =
  item_text t +:+ ("," +:+ Json.newline_indent 2) +:+ items_text (t' :: stt).
Proof. reflexivity. Qed.

Lemma all_plain_item_text (t : transition) : all_plain (item_text t) = true.
Proof.
  rewrite <- (append_nil_r (item_text t)), item_text_append.
  rewrite !all_plain_append, !all_plain_encode_string. reflexivity.
Qed.

Lemma all_plain_items_text (stt : list transition) :
  all_plain (items_text stt) = true.
Proof.
  induction stt as [|t [|t' stt] IH]; [reflexivity|apply all_plain_item_text|].
  rewrite items_text_cons2, !all_plain_append, all_plain_item_text, IH.
  reflexivity.
Qed.

(** X19: the text of the export holds only printable ASCII characters and
    line feeds, whatever characters the cells of the table hold: every other
    character is written as an escape. *)
Theorem json_plain_ascii (stt_csv : list (list string)) (stt : list transition) :
  _parse stt_csv = Ok stt ->
  exists text : string, _json stt_csv = Ok text /\ all_plain text = true.
Proof.
  intros H. exists (Json.dumps (dict_stt stt)). unfold _json. rewrite H.
  split; [reflexivity|]. rewrite dumps_dict_stt.
  destruct stt as [|t stt]; [reflexivity|].
  rewrite !all_plain_append, all_plain_items_text, all_plain_encode_string.
  reflexivity.
Qed.

Lemma json_plain_ascii_witness :
  exists text : string,
    _json [_HEADER_ROW;
           [String "233"%char "tat"; String "009"%char "B"; Json.quote]] =
    Ok text /\
    all_plain text = true.
Proof.
  apply (json_plain_ascii _
           [Transition Json.quote (String "233"%char "tat")
                       (String "009"%char "B")]).
  reflexivity.
Defined.

(** ** The export determines the table *)

Lemma append_inv_head (a x y : string) : a +:+ x = a +:+ y -> x = y.
Proof.
  induction a as [|c a IH]; [exact (fun H => H)|].
  rewrite !append_cons. intros [= H]. exact (IH H).
Qed.

(** Take a common prefix off the two sides of an equation. *)
Ltac strip H prefix := apply (append_inv_head prefix) in H.

(** Escaped texts that end at a quote are read back in one way only. *)
Lemma escape_all_inj (s s' r r' : string) :
  Json.escape_all s +:+ Json.quote +:+ r =
  Json.escape_all s' +:+ Json.quote +:+ r' ->
  s = s' /\ r = r'.
Proof.
  revert s'. induction s as [|c s IH]; intros [|c' s'] H; simpl in H.
  - strip H Json.quote. split; [reflexivity | exact H].
  - rewrite append_nil_l, append_assoc in H.
    apply (f_equal unescape) in H.
    rewrite unescape_quote, unescape_escape in H. discriminate H.
  - rewrite append_nil_l, append_assoc in H.
    apply (f_equal unescape) in H.
    rewrite unescape_quote, unescape_escape in H. discriminate H.
  - rewrite !append_assoc in H. apply (f_equal unescape) in H.
    rewrite !unescape_escape in H. injection H as -> H.
    destruct (IH _ H) as [-> ->]. split; reflexivity.
Qed.

Lemma encode_string_inj (s s' r r' : string) :
  Json.encode_basestring_ascii s +:+ r =
  Json.encode_basestring_ascii s' +:+ r' ->
  s = s' /\ r = r'.
Proof.
  unfold Json.encode_basestring_ascii. rewrite !append_assoc.
  intros H. strip H Json.quote. apply escape_all_inj. exact H.
Qed.

Lemma item_text_inj (t t' : transition) (r r' : string) :
  item_text t +:+ r = item_text t' +:+ r' -> t = t' /\ r = r'.
Proof.
  rewrite !item_text_append. intros H.
  strip H "{". strip H (Json.newline_indent 3).
  strip H (Json.encode_basestring_ascii "trigger"). strip H ": ".
  apply encode_string_inj in H as [Htr H].
  strip H ",". strip H (Json.newline_indent 3).
  strip H (Json.encode_basestring_ascii "source"). strip H ": ".
  apply encode_string_inj in H as [Hsrc H].
  strip H ",". strip H (Json.newline_indent 3).
  strip H (Json.encode_basestring_ascii "dest"). strip H ": ".
  apply encode_string_inj in H as [Hdst H].
  strip H (Json.newline_indent 2). strip H "}".
  split; [|exact H].
  destruct t, t'. simpl in *. congruence.
Qed.

Lemma items_text_inj (stt stt' : list transition) (r r' : string) :
  stt <> [] -> stt' <> [] ->
  items_text stt +:+ Json.newline_indent 1 +:+ r =
  items_text stt' +:+ Json.newline_indent 1 +:+ r' ->
  stt = stt'.
Proof.
  revert stt'. induction stt as [|t [|t2 stt] IH]; intros stt' Hne Hne' H;
    [congruence|..]; destruct stt' as [|t' [|t2' stt']]; try congruence.
  - apply item_text_inj in H as [-> _]. reflexivity.
  - rewrite items_text_cons2, !append_assoc in H.
    apply item_text_inj in H as [_ H]. discriminate H.
  - rewrite items_text_cons2, !append_assoc in H.
    apply item_text_inj in H as [_ H]. discriminate H.
  - rewrite !items_text_cons2, !append_assoc in H.
    apply item_text_inj in H as [-> H].
    strip H ",". strip H (Json.newline_indent 2).
    f_equal. apply IH; [discriminate | discriminate | exact H].
Qed.

(** X20: the export loses nothing: two tables with the same export text
    are the same table, transition by transition and character by
    character. *)
Theorem json_determines_table (stt_csv stt_csv' : list (list string))
    (text : string) :
  _json stt_csv = Ok text ->
  _json stt_csv' = Ok text ->
  exists stt : list transition,
    _parse stt_csv = Ok stt /\ _parse stt_csv' = Ok stt.
Proof.
  unfold _json.
  destruct (_parse stt_csv) as [stt|e]; [|discriminate].
  destruct (_parse stt_csv') as [stt'|e']; [|discriminate].
  cbv [fmap result_fmap]. intros H1 H2.
  assert (H : Json.dumps (dict_stt stt) = Json.dumps (dict_stt stt'))
    by congruence.
  clear H1 H2. exists stt. split; [reflexivity|]. f_equal.
  rewrite !dumps_dict_stt in H.
  destruct stt as [|t stt], stt' as [|t' stt'].
  - reflexivity.
  - strip H "{". strip H (Json.newline_indent 1).
    strip H (Json.encode_basestring_ascii "transitions"). strip H ": ".
    discriminate H.
  - strip H "{". strip H (Json.newline_indent 1).
    strip H (Json.encode_basestring_ascii "transitions"). strip H ": ".
    discriminate H.
  - strip H "{". strip H (Json.newline_indent 1).
    strip H (Json.encode_basestring_ascii "transitions"). strip H ": ".
    strip H "[". strip H (Json.newline_indent 2).
    apply items_text_inj in H; [symmetry; exact H | discriminate | discriminate].
Qed.

Lemma json_determines_table_witness :
  exists stt : list transition,
    _parse [_HEADER_ROW; ["A"; "B"; ""]; [""; "C"; "__07"]] = Ok stt /\
    _parse [_HEADER_ROW; ["A"; "B"; "_B"; "x"]; ["A"; "C"; "__ 7"]] = Ok stt.
Proof.
  apply (json_determines_table
           [_HEADER_ROW; ["A"; "B"; ""]; [""; "C"; "__07"]]
           [_HEADER_ROW; ["A"; "B"; "_B"; "x"]; ["A"; "C"; "__ 7"]]
           (Json.dumps (dict_stt [Transition "EVT_B" "A" "B";
                                  Transition "(after 7 sec.)" "A" "C"])));
    reflexivity.
Defined.
